(** * DBUpdater: database creation, population and update

    A shallow embedding of [src/server/database/Updater/DBUpdater.cpp]:
    the per-database policy functions, the construction of the argument
    vector handed to the MySQL command line client, and the
    [Create] / [Populate] / [Update] life cycle with its interactive
    fallback prompts.

    The C++ code talks to the file system, the terminal, a child process,
    the network and the connection pool.  Here the program state is an
    explicit [World]; every observable action is appended to a
    chronological [trace]; the answers of the outside world are functions
    of the history so far, gathered in the record [Collaborators]. *)

From Stdlib Require Import ZArith Ascii String List Lia.
From stdpp Require Import base gmap strings list pretty.

Local Open Scope string_scope.
Local Open Scope list_scope.
Local Open Scope Z_scope.

(** ** Paths and the file system *)

(** [boost::filesystem::path]; [generic_string()] is the identity on a
    POSIX build. *)
Definition Path := string.

Definition generic_string (p : Path) : string := p.

Inductive Node : Type :=
| RegularFile (content : string)
| Directory.

(** ** Observable actions *)

Inductive LogLevel : Type := LOG_INFO | LOG_WARN | LOG_ERROR | LOG_FATAL.

Inductive Event : Type :=
| EvLog (level : LogLevel) (filter : string) (message : string)
| EvCout (text : string)
| EvGetline (line : string)
| EvStartProcess (executable : string) (args : list string) (ret : Z)
| EvCurlInit (ok : bool)
| EvTransfer (url : string) (body : option string)
| EvDownloadFile (url dest : string) (ok : bool)
| EvWrite (path : Path) (text : string)
| EvQuery (database : string) (sql : string) (rows : option N)
| EvDirectExecute (database : string) (sql : string)
| EvFetcherUpdate (sourceDirectory : Path).

(** ** Program state *)

Record World : Type := mkWorld {
  corrected_path : string;          (* the function-local static of [DBUpdaterUtil::corrected_path] *)
  cin : list string;                (* lines still to be read from [std::cin] *)
  files : gmap string Node;         (* the file system, keyed by canonical absolute path *)
  trace : list Event                (* everything done so far, oldest first *)
}.

Definition set_corrected_path (p : string) (w : World) : World :=
  mkWorld p (cin w) (files w) (trace w).

Definition set_cin (l : list string) (w : World) : World :=
  mkWorld (corrected_path w) l (files w) (trace w).

Definition set_files (f : gmap string Node) (w : World) : World :=
  mkWorld (corrected_path w) (cin w) f (trace w).

Definition emit (e : Event) (w : World) : World :=
  mkWorld (corrected_path w) (cin w) (files w) (trace w ++ [e]).

(** ** Computations that may throw [UpdateException] *)

Inductive UpdateException : Type :=
| mkUpdateException (msg : string).

Inductive Outcome (A : Type) : Type :=
| Normal (a : A)
| Raised (e : UpdateException).

Arguments Normal {A} a.
Arguments Raised {A} e.

Definition Run (A : Type) : Type := World -> Outcome A * World.

Definition ret {A} (a : A) : Run A := fun w => (Normal a, w).

Definition throw {A} (e : UpdateException) : Run A := fun w => (Raised e, w).

Definition bind {A B} (m : Run A) (k : A -> Run B) : Run B :=
  fun w =>
    match m w with
    | (Normal a, w') => k a w'
    | (Raised e, w') => (Raised e, w')
    end.

(** [try { body } catch (UpdateException&) { handler }] *)
Definition try_catch {A} (body : Run A) (handler : UpdateException -> Run A) : Run A :=
  fun w =>
    match body w with
    | (Normal a, w') => (Normal a, w')
    | (Raised e, w') => handler e w'
    end.

Definition modify (f : World -> World) : Run unit := fun w => (Normal tt, f w).

Definition gets {A} (f : World -> A) : Run A := fun w => (Normal (f w), w).

Declare Scope run_scope.
Delimit Scope run_scope with run.

Notation "x <- m ;; k" := (bind m (fun x => k))
  (at level 100, m at next level, right associativity) : run_scope.
Notation "m ;; k" := (bind m (fun _ => k))
  (at level 100, right associativity) : run_scope.

Local Open Scope run_scope.

(** [TC_LOG_INFO(filter, fmt, args...)] and friends: the message is given
    already formatted, each [{}] replaced by its argument. *)
Definition TC_LOG (level : LogLevel) (filter message : string) : Run unit :=
  modify (emit (EvLog level filter message)).

(** [std::cout << text] *)
Definition cout (text : string) : Run unit := modify (emit (EvCout text)).

(** [std::getline(std::cin, s)]: the next line, or the empty string once
    the input is exhausted ([getline] erases its argument before reading). *)
Definition getline : Run string := fun w =>
  match cin w with
  | [] => (Normal "", emit (EvGetline "") w)
  | l :: rest => (Normal l, emit (EvGetline l) (set_cin rest w))
  end.

(** [response == "y" || response == "Y"] *)
Definition is_yes (response : string) : bool :=
  String.eqb response "y" || String.eqb response "Y".

(** ** Build configuration, databases and connection pools *)

(** The preprocessor symbols that select code in [ApplyFile] and
    [DownloadFile]. *)
Record Build : Type := mkBuild {
  _WIN32 : bool;
  MARIADB_VERSION_ID_defined : bool;
  MYSQL_VERSION_ID : Z
}.

(** The four connection classes [DBUpdater<T>] is instantiated with. *)
Inductive DatabaseType : Type :=
| LoginDatabaseConnection
| WorldDatabaseConnection
| CharacterDatabaseConnection
| HotfixDatabaseConnection.

Global Instance DatabaseType_eq_dec : EqDecision DatabaseType.
Proof. solve_decision. Defined.

Inductive BaseLocation : Type := LOCATION_REPOSITORY | LOCATION_DOWNLOAD.

Global Instance BaseLocation_eq_dec : EqDecision BaseLocation.
Proof. solve_decision. Defined.

Record MySQLConnectionInfo : Type := mkConnectionInfo {
  user : string;
  password : string;
  database : string;
  host : string;
  port_or_socket : string;
  ssl : string
}.

Record DatabaseWorkerPool : Type := mkPool {
  GetConnectionInfo : MySQLConnectionInfo
}.

(** [QueryResult] is a shared pointer to a result set; [None] is the null
    pointer, [Some n] a result set of [n] rows. *)
Definition QueryResult : Type := option N.

Record UpdateResult : Type := mkUpdateResult {
  updated : N;
  recent : N;
  archived : N
}.

(** The object built in [Update]: the source directory and the three
    callbacks it captures. *)
Record UpdateFetcher : Type := mkUpdateFetcher {
  sourceDirectory : Path;
  fetcher_apply : string -> Run unit;
  fetcher_applyFile : Path -> Run unit;
  fetcher_retrieve : string -> Run QueryResult
}.

(** ** The outside world

    Everything [DBUpdater.cpp] uses but does not define.  An answer that
    can differ from call to call is a function of the trace at the time
    of the call. *)
Record Collaborators : Type := mkCollaborators {
  build : Build;
  (* BuiltInConfig *)
  GetMySQLExecutable : string;
  GetSourceDirectory : string;
  (* GitRevision *)
  GetFullDatabase : string;
  GetHotfixesDatabase : string;
  (* sConfigMgr *)
  GetBoolDefault : string -> bool -> bool;
  GetIntDefault : string -> Z -> Z;
  (* DatabaseLoader::DatabaseTypeFlags *)
  DATABASE_LOGIN : Z;
  DATABASE_CHARACTER : Z;
  DATABASE_WORLD : Z;
  DATABASE_HOTFIX : Z;
  (* boost::filesystem::current_path(), without its leading separator *)
  working_directory : string;
  (* Trinity::SearchExecutableInPath; the empty path when nothing is found *)
  SearchExecutableInPath : string -> gmap string Node -> Path;
  (* exit status of the child started by Trinity::StartProcess *)
  process_exit : string -> list string -> list Event -> Z;
  (* does curl_easy_init hand out a handle *)
  curl_handle : list Event -> bool;
  (* what a transfer of the url delivers; None when it fails *)
  transfer : string -> list Event -> option string;
  (* DatabaseWorkerPool::Query *)
  pool_Query : MySQLConnectionInfo -> string -> list Event -> QueryResult;
  (* UpdateFetcher::Update: returns an UpdateResult or throws UpdateException *)
  UpdateFetcher_Update : UpdateFetcher -> bool -> bool -> bool -> Z -> Run UpdateResult
}.

(** ** [std::string] and [<cctype>] *)

Definition NUL : ascii := Ascii.zero.

(** [s[pos]] on a [std::string const&].  The standard ([string.access])
    requires [pos <= size()] and specifies the result: [*(begin() + pos)]
    if [pos < size()], otherwise a reference to an object of type [charT]
    with value [charT()], the null character.  [None] stands for a read
    outside that contract, [pos > size()]. *)
Definition subscript (s : string) (pos : nat) : option ascii :=
  match String.get pos s with
  | Some c => Some c
  | None => if Nat.eqb pos (String.length s) then Some NUL else None
  end.

(** [s[0]], which is inside the contract for every [s]. *)
Definition front (s : string) : ascii :=
  match s with
  | EmptyString => NUL
  | String c _ => c
  end.

(** [std::isdigit] in the "C" locale *)
Definition isdigit (c : ascii) : bool :=
  (48 <=? nat_of_ascii c)%nat && (nat_of_ascii c <=? 57)%nat.

(** [s.empty()] *)
Definition empty (s : string) : bool :=
  match s with
  | EmptyString => true
  | String _ _ => false
  end.

Definition EXIT_SUCCESS : Z := 0.

(** ** The argument vector of the command line client *)

Definition emplace_back (args : list string) (a : string) : list string := args ++ [a].

Definition ApplyFile_args (b : Build)
    (host user password port_or_socket database ssl : string) (path : Path) : list string :=
  let args := [] in
  (* CLI Client connection info *)
  let args := emplace_back args ("-h" +:+ host) in
  let args := emplace_back args ("-u" +:+ user) in
  let args := if negb (empty password) then emplace_back args ("-p" +:+ password) else args in
  (* Check if we want to connect through ip or socket (Unix only) *)
  let args :=
    if _WIN32 b then
      if String.eqb host "." then emplace_back args "--protocol=PIPE"
      else emplace_back args ("-P" +:+ port_or_socket)
    else
      if negb (isdigit (front port_or_socket)) then
        let args := emplace_back args "-P0" in
        let args := emplace_back args "--protocol=SOCKET" in
        emplace_back args ("-S" +:+ port_or_socket)
      else
        (* generic case *)
        emplace_back args ("-P" +:+ port_or_socket) in
  (* Set the default charset to utf8 *)
  let args := emplace_back args "--default-character-set=utf8mb4" in
  (* Set max allowed packet to 1 GB *)
  let args := emplace_back args "--max-allowed-packet=1GB" in
  let args :=
    if negb (MARIADB_VERSION_ID_defined b) && (80000 <=? MYSQL_VERSION_ID b) then
      let args := if String.eqb ssl "ssl" then emplace_back args "--ssl-mode=REQUIRED" else args in
      if 90400 <=? MYSQL_VERSION_ID b then emplace_back args "--commands=ON" else args
    else
      if String.eqb ssl "ssl" then emplace_back args "--ssl" else args in
  (* Execute sql file *)
  let args := emplace_back args "-e" in
  let args := emplace_back args ("BEGIN; SOURCE " +:+ generic_string path +:+ "; COMMIT;") in
  (* Database *)
  let args := if negb (empty database) then emplace_back args database else args in
  args.

(** ** Per-database policy: the explicit specialisations of [DBUpdater<T>] *)

Definition GetConfigEntry (T : DatabaseType) : string :=
  match T with
  | LoginDatabaseConnection => "Updates.Auth"
  | WorldDatabaseConnection => "Updates.World"
  | CharacterDatabaseConnection => "Updates.Character"
  | HotfixDatabaseConnection => "Updates.Hotfix"
  end.

Definition GetTableName (T : DatabaseType) : string :=
  match T with
  | LoginDatabaseConnection => "Auth"
  | WorldDatabaseConnection => "World"
  | CharacterDatabaseConnection => "Character"
  | HotfixDatabaseConnection => "Hotfixes"
  end.

(** [GetBaseLocationType] is specialised for two of the classes only ... *)
Definition GetBaseLocationType_specialization (T : DatabaseType) : option BaseLocation :=
  match T with
  | WorldDatabaseConnection => Some LOCATION_DOWNLOAD
  | HotfixDatabaseConnection => Some LOCATION_DOWNLOAD
  | LoginDatabaseConnection | CharacterDatabaseConnection => None
  end.

(** ... and the primary template serves the others. *)
Definition GetBaseLocationType_primary : BaseLocation := LOCATION_REPOSITORY.

Definition GetBaseLocationType (T : DatabaseType) : BaseLocation :=
  match GetBaseLocationType_specialization T with
  | Some l => l
  | None => GetBaseLocationType_primary
  end.

(** The explicit instantiations that close the file. *)
Definition instantiations : list DatabaseType :=
  [LoginDatabaseConnection; WorldDatabaseConnection;
   CharacterDatabaseConnection; HotfixDatabaseConnection].

(** What one instantiation of [DBUpdater<T>] answers. *)
Record DatabaseProfile : Type := mkProfile {
  config_entry : string;
  table_name : string;
  base_file : string;
  enabled_flag : Z;
  base_location : BaseLocation
}.

Definition LF : string := String (ascii_of_nat 10) EmptyString.

Definition DQ : string := String (ascii_of_nat 34) EmptyString.

Section DBUpdater.

Variable env : Collaborators.

Definition GetBaseFile (T : DatabaseType) : string :=
  match T with
  | LoginDatabaseConnection => GetSourceDirectory env +:+ "/sql/base/auth_database.sql"
  | WorldDatabaseConnection => GetFullDatabase env
  | CharacterDatabaseConnection => GetSourceDirectory env +:+ "/sql/base/characters_database.sql"
  | HotfixDatabaseConnection => GetHotfixesDatabase env
  end.

Definition DatabaseTypeFlag (T : DatabaseType) : Z :=
  match T with
  | LoginDatabaseConnection => DATABASE_LOGIN env
  | WorldDatabaseConnection => DATABASE_WORLD env
  | CharacterDatabaseConnection => DATABASE_CHARACTER env
  | HotfixDatabaseConnection => DATABASE_HOTFIX env
  end.

Definition IsEnabled (T : DatabaseType) (updateMask : Z) : bool :=
  if Z.land updateMask (DatabaseTypeFlag T) =? 0 then false else true.

Definition profile (T : DatabaseType) : DatabaseProfile :=
  mkProfile (GetConfigEntry T) (GetTableName T) (GetBaseFile T)
            (DatabaseTypeFlag T) (GetBaseLocationType T).

(** *** Paths *)

Definition current_path : Path := "/" +:+ working_directory env.

Definition is_absolute (p : Path) : bool :=
  match p with
  | String c _ => Ascii.eqb c "/"%char
  | EmptyString => false
  end.

Fixpoint ends_with_separator (p : Path) : bool :=
  match p with
  | EmptyString => false
  | String c EmptyString => Ascii.eqb c "/"%char
  | String _ rest => ends_with_separator rest
  end.

(** [boost::filesystem::absolute]: an absolute path is returned as it is,
    the empty path gives the current directory, and any other path is
    appended to the current directory ([current_path() / p]), after a
    separator unless the current directory ends with one. *)
Definition absolute (p : Path) : Path :=
  if is_absolute p then p
  else if empty p then current_path
  else if ends_with_separator current_path then current_path +:+ p
  else current_path +:+ "/" +:+ p.

(** *** File system primitives *)

(** The names between the separators of a path. *)
Fixpoint names (p : Path) : list string :=
  match p with
  | EmptyString => [""]
  | String c rest =>
      if Ascii.eqb c "/"%char then "" :: names rest
      else match names rest with
           | name :: others => String c name :: others
           | [] => [String c ""]
           end
  end.

(** The key of the node reached from the root through the directories
    [location]. *)
Definition key (location : list string) : string :=
  match location with
  | [] => "/"
  | _ => foldr (fun name rest => "/" +:+ name +:+ rest) "" location
  end.

(** The root is a directory. *)
Definition node_at (fs : gmap string Node) (location : list string) : option Node :=
  match location with
  | [] => Some Directory
  | _ => fs !! key location
  end.

(** Path resolution: each name is looked up in what has to be a
    directory; the empty name and [.] stay there, [..] goes up. *)
Fixpoint resolve_from (fs : gmap string Node) (here : list string) (rest : list string)
    : option (list string) :=
  match rest with
  | [] => Some here
  | name :: rest =>
      match node_at fs here with
      | Some Directory =>
          if String.eqb name "" || String.eqb name "." then resolve_from fs here rest
          else if String.eqb name ".." then resolve_from fs (removelast here) rest
          else resolve_from fs (here ++ [name]) rest
      | _ => None
      end
  end.

(** Where a path leads, when the directories on the way exist. *)
Definition locate (p : Path) (w : World) : option (list string) :=
  resolve_from (files w) [] (names (absolute p)).

(** What a path names; the empty path names nothing. *)
Definition status (p : Path) (w : World) : option Node :=
  if empty p then None
  else match locate p w with
       | Some location => node_at (files w) location
       | None => None
       end.

Definition is_regular_file (p : Path) (w : World) : bool :=
  match status p w with
  | Some (RegularFile _) => true
  | _ => false
  end.

Definition is_directory (p : Path) (w : World) : bool :=
  match status p w with
  | Some Directory => true
  | _ => false
  end.

(** Opening a file for writing ([std::ofstream], [fopen(.., "wb")]):
    creates or truncates it; fails on the empty path, on a directory and
    when the directory the file is to be in does not exist.  The result
    is whether the stream is open. *)
Definition open_for_writing (p : Path) : Run bool := fun w =>
  if empty p then (Normal false, w)
  else match locate p w with
       | Some location =>
           match node_at (files w) location with
           | Some Directory => (Normal false, w)
           | _ => (Normal true, set_files (<[key location := RegularFile ""]> (files w)) w)
           end
       | None => (Normal false, w)
       end.

(** [file << text] on a stream opened on [p] *)
Definition write (p : Path) (text : string) : Run unit :=
  modify (fun w =>
    match locate p w with
    | Some location =>
        match node_at (files w) location with
        | Some (RegularFile c) =>
            emit (EvWrite p text)
              (set_files (<[key location := RegularFile (c +:+ text)]> (files w)) w)
        | _ => w
        end
    | None => w
    end).

(** [boost::filesystem::remove] of what the path names.  The program
    calls it on the scratch file it has opened, a regular file. *)
Definition remove (p : Path) : Run unit :=
  modify (fun w =>
    match locate p w with
    | Some location => set_files (delete (key location) (files w)) w
    | None => w
    end).

(** *** [DownloadFile] *)

(** The body of [DownloadFile]: [URLDownloadToFileA] under [_WIN32], libcurl
    otherwise. *)
Definition DownloadFile_body (url dest : string) : Run bool :=
  if _WIN32 (build env) then
    body <- gets (fun w => transfer env url (trace w)) ;;
    modify (emit (EvTransfer url body)) ;;
    match body with
    | None => ret false
    | Some b =>
        fp <- open_for_writing dest ;;
        if negb fp then ret false else (write dest b ;; ret true)
    end
  else
    curl <- gets (fun w => curl_handle env (trace w)) ;;
    modify (emit (EvCurlInit curl)) ;;
    if negb curl then ret false else
    fp <- open_for_writing dest ;;
    if negb fp then ret false else
    (* curl_easy_perform *)
    body <- gets (fun w => transfer env url (trace w)) ;;
    modify (emit (EvTransfer url body)) ;;
    match body with
    | None => ret false
    | Some b => write dest b ;; ret true
    end.

(** [DownloadFile], with its result recorded in the trace. *)
Definition DownloadFile (url dest : string) : Run bool :=
  ok <- DownloadFile_body url dest ;;
  modify (emit (EvDownloadFile url dest ok)) ;;
  ret ok.

(** *** [DBUpdaterUtil] *)

Definition GetCorrectedMySQLExecutable (w : World) : string :=
  if negb (empty (corrected_path w)) then corrected_path w
  else GetMySQLExecutable env.

Definition CheckExecutable : Run bool :=
  exe <- gets GetCorrectedMySQLExecutable ;;
  regular <- gets (is_regular_file exe) ;;
  if negb regular then
    exe <- gets (fun w => SearchExecutableInPath env "mysql" (files w)) ;;
    found <- gets (is_regular_file exe) ;;
    if negb (empty exe) && found then
      (* Correct the path to the cli *)
      modify (set_corrected_path (generic_string (absolute exe))) ;;
      ret true
    else
      TC_LOG LOG_FATAL "sql.updates"
        ("Didn't find any executable MySQL binary at '" +:+ generic_string (absolute exe)
         +:+ "' or in path, correct the path in the *.conf (" +:+ DQ +:+ "MySQLExecutable" +:+ DQ +:+ ").") ;;
      ret false
  else ret true.

(** *** Pool access *)

(** [DBUpdater<T>::Retrieve]: [pool.Query(query)] *)
Definition Retrieve (pool : DatabaseWorkerPool) (query : string) : Run QueryResult :=
  result <- gets (fun w => pool_Query env (GetConnectionInfo pool) query (trace w)) ;;
  modify (emit (EvQuery (database (GetConnectionInfo pool)) query result)) ;;
  ret result.

(** [DBUpdater<T>::Apply]: [pool.DirectExecute(query)] *)
Definition Apply (pool : DatabaseWorkerPool) (query : string) : Run unit :=
  modify (emit (EvDirectExecute (database (GetConnectionInfo pool)) query)).

(** *** [ApplyFile] *)

(** [pool.GetConnectionInfo()->database] *)
Definition pool_database (pool : DatabaseWorkerPool) : string :=
  database (GetConnectionInfo pool).

(** Calls [f] with the six connection attributes of the pool, in the order
    of the parameters of the eight-parameter [ApplyFile]. *)
Definition with_connection_info {A} (pool : DatabaseWorkerPool)
    (f : string -> string -> string -> string -> string -> string -> A) : A :=
  let info := GetConnectionInfo pool in
  f (host info) (user info) (password info) (port_or_socket info) (database info) (ssl info).

(** [Trinity::StartProcess(executable, args, logger, input_file, secure)] *)
Definition StartProcess (executable : string) (args : list string)
    (logger input_file : string) (secure : bool) : Run Z :=
  code <- gets (fun w => process_exit env executable args (trace w)) ;;
  modify (emit (EvStartProcess executable args code)) ;;
  ret code.

(** The block guarded by [if (ret != EXIT_SUCCESS)]; [self] is the call
    [ApplyFile(pool, path)] made when the operator accepts the default
    file. *)
Definition ApplyFile_failed (self : Path -> Run unit) (pool : DatabaseWorkerPool)
    (path : Path) : Run unit :=
  defaultExists <- gets (is_regular_file path) ;;
  let dbName := pool_database pool in
  if negb defaultExists then
    TC_LOG LOG_ERROR "sql.updates"
      ("Database update aborted or failed for '" +:+ dbName +:+ "'." +:+ LF
       +:+ "You declined to download or provide a custom SQL file, and no default TDB SQL file was found at '"
       +:+ generic_string path +:+ "'." +:+ LF
       +:+ "Please manually place a valid SQL file in the correct location, enable AutoDBUpdate, or re-run the configuration.") ;;
    throw (mkUpdateException "Database update canceled or failed")
  else
    TC_LOG LOG_WARN "sql.updates"
      ("Database update for '" +:+ dbName +:+ "' was skipped or failed." +:+ LF
       +:+ "You declined both online and custom local SQL updates, but a default local file was found:" +:+ LF
       +:+ "    " +:+ generic_string path +:+ LF
       +:+ "Would you like to use this default SQL file for database setup?") ;;
    cout "Use default TrinityCore SQL (TDB) files? [y/N]: " ;;
    response <- getline ;;
    if is_yes response then
      TC_LOG LOG_INFO "sql.updates"
        ("Applying default local SQL file '" +:+ generic_string path +:+ "'...") ;;
      try_catch (self path)
        (fun e =>
           TC_LOG LOG_FATAL "sql.updates"
             ("Default SQL file '" +:+ generic_string path +:+ "' could not be applied. "
              +:+ "Please verify the file is valid or re-run the configuration.") ;;
           throw e) ;;
      (* Successfully applied fallback *)
      ret tt
    else
      TC_LOG LOG_INFO "sql.updates"
        ("User declined to apply default local SQL file. Database '" +:+ dbName
         +:+ "' remains unchanged.") ;;
      throw (mkUpdateException "Database update canceled or failed").

(** The body of the eight-parameter [ApplyFile]. *)
Definition ApplyFile_body (self : Path -> Run unit) (pool : DatabaseWorkerPool)
    (host user password port_or_socket database ssl : string) (path : Path) : Run unit :=
  let args := ApplyFile_args (build env) host user password port_or_socket database ssl path in
  (* Invokes a mysql process which doesn't leak credentials to logs *)
  executable <- gets GetCorrectedMySQLExecutable ;;
  code <- StartProcess executable args "sql.updates" "" true ;;
  if negb (code =? EXIT_SUCCESS) then ApplyFile_failed self pool path
  else ret tt.

(** The recursion of [ApplyFile] through its own fallback is tied with a
    counter of the nested calls still allowed.  Each nested call is
    preceded by a [getline] that returned "y" or "Y", so the number of
    unread input lines bounds the nesting ([ApplyFile8_unfold] below shows
    that the counter never runs out). *)
Fixpoint ApplyFile_nested (depth : nat) (pool : DatabaseWorkerPool)
    (host user password port_or_socket database ssl : string) (path : Path) : Run unit :=
  ApplyFile_body
    (fun p =>
       match depth with
       | O => ret tt
       | S depth' => with_connection_info pool (ApplyFile_nested depth' pool) p
       end)
    pool host user password port_or_socket database ssl path.

(** [ApplyFile(pool, host, user, password, port_or_socket, database, ssl, path)] *)
Definition ApplyFile8 (pool : DatabaseWorkerPool)
    (host user password port_or_socket database ssl : string) (path : Path) : Run unit :=
  fun w => ApplyFile_nested (length (cin w)) pool host user password port_or_socket database ssl path w.

(** [ApplyFile(pool, path)] *)
Definition ApplyFile (pool : DatabaseWorkerPool) (path : Path) : Run unit :=
  with_connection_info pool (ApplyFile8 pool) path.

(** *** [Create] *)

(** Path of temp file *)
Definition temp : Path := "create_table.sql".

Definition create_statement (pool : DatabaseWorkerPool) : string :=
  "CREATE DATABASE `" +:+ pool_database pool
  +:+ "` DEFAULT CHARACTER SET utf8mb4 COLLATE utf8mb4_unicode_ci" +:+ LF +:+ LF.

Definition privileges_diagnostic (pool : DatabaseWorkerPool) : string :=
  "Failed to create database " +:+ pool_database pool
  +:+ "! Does the user (named in *.conf) have `CREATE`, `ALTER`, `DROP`, `INSERT` and `DELETE` privileges on the MySQL server?".

Definition Create (T : DatabaseType) (pool : DatabaseWorkerPool) : Run bool :=
  TC_LOG LOG_INFO "sql.updates"
    ("Database " +:+ DQ +:+ pool_database pool +:+ DQ +:+ " does not exist, automatically creating it...") ;;
  is_open <- open_for_writing (generic_string temp) ;;
  if negb is_open then
    TC_LOG LOG_FATAL "sql.updates"
      ("Failed to create temporary query file " +:+ DQ +:+ generic_string temp +:+ DQ +:+ "!") ;;
    ret false
  else
    write (generic_string temp) (create_statement pool) ;;
    (* [Some b]: the handler returned [b] from [Create] *)
    returned <- try_catch
      (with_connection_info pool
         (fun host user password port_or_socket _ ssl =>
            ApplyFile8 pool host user password port_or_socket "" ssl temp) ;;
       ret None)
      (fun _ =>
         TC_LOG LOG_FATAL "sql.updates" (privileges_diagnostic pool) ;;
         remove temp ;;
         ret (Some false)) ;;
    match returned with
    | Some b => ret b
    | None =>
        TC_LOG LOG_INFO "sql.updates" "Done." ;;
        remove temp ;;
        ret true
    end.

(** *** [Update] *)

(** The [UpdateFetcher] constructed in [Update]. *)
Definition updateFetcher (pool : DatabaseWorkerPool) : UpdateFetcher :=
  mkUpdateFetcher (GetSourceDirectory env)
    (fun query => Apply pool query)
    (fun file => ApplyFile pool file)
    (fun query => Retrieve pool query).

(** [updateFetcher.Update(...)] with the four settings read from the
    configuration; the call is recorded in the trace. *)
Definition run_fetcher (pool : DatabaseWorkerPool) : Run UpdateResult :=
  modify (emit (EvFetcherUpdate (GetSourceDirectory env))) ;;
  UpdateFetcher_Update env (updateFetcher pool)
    (GetBoolDefault env "Updates.Redundancy" true)
    (GetBoolDefault env "Updates.AllowRehash" true)
    (GetBoolDefault env "Updates.ArchivedRedundancy" false)
    (GetIntDefault env "Updates.CleanDeadRefMaxCount" 3).

Definition Update (T : DatabaseType) (pool : DatabaseWorkerPool) : Run bool :=
  ok <- CheckExecutable ;;
  if negb ok then ret false else
  TC_LOG LOG_INFO "sql.updates" ("Updating " +:+ GetTableName T +:+ " database...") ;;
  let sourceDirectory := GetSourceDirectory env in
  is_dir <- gets (is_directory sourceDirectory) ;;
  if negb is_dir then
    TC_LOG LOG_ERROR "sql.updates"
      ("DBUpdater: The given source directory " +:+ generic_string sourceDirectory
       +:+ " does not exist, change the path to the directory where your sql directory exists (for example c:\source\trinitycore). Shutting down.") ;;
    ret false
  else
    (* [None]: the handler returned [false] from [Update] *)
    fetched <- try_catch
      (result <- run_fetcher pool ;;
       ret (Some result))
      (fun _ => ret None) ;;
    match fetched with
    | None => ret false
    | Some result =>
        let info := "Containing " +:+ pretty (recent result) +:+ " new and "
                    +:+ pretty (archived result) +:+ " archived updates." in
        (if (updated result =? 0)%N then
           TC_LOG LOG_INFO "sql.updates"
             (">> " +:+ GetTableName T +:+ " database is up-to-date! " +:+ info)
         else
           TC_LOG LOG_INFO "sql.updates"
             (">> Applied " +:+ pretty (updated result) +:+ " "
              +:+ (if (updated result =? 1)%N then "query" else "queries") +:+ ". " +:+ info)) ;;
        ret true
    end.

(** *** [Populate] *)

Definition world_url : string :=
  "https://warspire.fpr.net/download/sql/TDB_full_world_1125.25101_2025_10_29.sql".

Definition hotfixes_url : string :=
  "https://warspire.fpr.net/download/sql/TDB_full_hotfixes_1125.25101_2025_10_29.sql".

Definition downloadUrl_of (dbName : string) : string :=
  if String.eqb dbName "World" then world_url
  else if String.eqb dbName "Hotfixes" then hotfixes_url
  else "".

(** The block guarded by [if (!downloadUrl.empty())].  It ends either by
    returning [false] from [Populate] ([None]) or by falling through to
    the application of [base] ([Some base]). *)
Definition resolve_base (dbName downloadUrl : string) (base : Path) : Run (option Path) :=
  (* Check AllowAutoDBUpdate in configuration *)
  let autoUpdate := GetBoolDefault env "AllowAutoDBUpdate" false in
  userInput <-
    (if autoUpdate then
       TC_LOG LOG_INFO "sql.updates"
         "AllowAutoDBUpdate=1, automatically proceeding with database update." ;;
       ret "y"
     else
       cout ("Do you want to download and apply the latest " +:+ dbName
             +:+ " database update? [y/N]: ") ;;
       getline) ;;
  if is_yes userInput then
    TC_LOG LOG_INFO "sql.updates" ("Downloading latest base SQL from " +:+ downloadUrl +:+ " ...") ;;
    downloaded <- DownloadFile downloadUrl (generic_string base) ;;
    if negb downloaded then
      TC_LOG LOG_FATAL "sql.updates"
        ("Failed to download " +:+ downloadUrl +:+ ". Manual download required!") ;;
      ret None
    else
      TC_LOG LOG_INFO "sql.updates" ("Successfully downloaded " +:+ generic_string base) ;;
      ret (Some base)
  else
    (* Ask if user wants to use an existing local file *)
    cout "Do you want to use an existing local SQL file instead? [y/N]: " ;;
    userInput <- getline ;;
    if is_yes userInput then
      cout "Enter full path to local SQL file: " ;;
      localFile <- getline ;;
      (if empty localFile then
         TC_LOG LOG_INFO "sql.updates" "No local file provided, skipping database update."
       else ret tt) ;;
      let base : Path := localFile in
      TC_LOG LOG_INFO "sql.updates" ("Using existing local file '" +:+ generic_string base +:+ "'") ;;
      ret (Some base)
    else
      TC_LOG LOG_INFO "sql.updates" "Update canceled by user." ;;
      ret (Some base).

(** The end of [Populate]: apply the base file and return. *)
Definition apply_base (T : DatabaseType) (pool : DatabaseWorkerPool) (base : Path) : Run bool :=
  let dbName := GetTableName T in
  (* Apply base SQL *)
  TC_LOG LOG_INFO "sql.updates" (">> Applying '" +:+ generic_string base +:+ "'...") ;;
  try_catch (ApplyFile pool base) (fun _ => ret tt) ;;
  TC_LOG LOG_INFO "sql.updates" (">> " +:+ dbName +:+ " Database update completed!") ;;
  ret true.

(** [Populate] from the line that announces the update on: resolve the
    base snapshot and apply it. *)
Definition Populate_base (T : DatabaseType) (pool : DatabaseWorkerPool) : Run bool :=
  let dbName := GetTableName T in
  TC_LOG LOG_INFO "sql.updates" ("Updating the " +:+ dbName +:+ " database to latest...") ;;
  let p := GetBaseFile T in
  if empty p then
    TC_LOG LOG_INFO "sql.updates" ">> No base file provided, skipped!" ;;
    ret true
  else
    let base : Path := p in
    (* For World and Hotfixes, always download latest file *)
    let downloadUrl := downloadUrl_of dbName in
    resolved <-
      (if negb (empty downloadUrl) then resolve_base dbName downloadUrl base
       else ret (Some base)) ;;
    match resolved with
    | None => ret false
    | Some base => apply_base T pool base
    end.

Definition Populate (T : DatabaseType) (pool : DatabaseWorkerPool) : Run bool :=
  ok <- CheckExecutable ;;
  if negb ok then ret false else
  let dbName := GetTableName T in
  (* Only force download/apply for World and Hotfixes *)
  populated <-
    (if negb (String.eqb dbName "World") && negb (String.eqb dbName "Hotfixes") then
       (* Original behavior: only populate if empty *)
       result <- Retrieve pool "SHOW TABLES" ;;
       ret (match result with
            | Some rows => (0 <? rows)%N
            | None => false
            end)
     else ret false) ;;
  if populated then ret true else Populate_base T pool.

End DBUpdater.

(** * Vocabulary of the statements *)

(** The events by which [w'] extends [w]. *)
Definition extends_by (w w' : World) (new : list Event) : Prop :=
  trace w' = trace w ++ new.

Definition is_StartProcess (e : Event) : bool :=
  match e with
  | EvStartProcess _ _ _ => true
  | _ => false
  end.

(** No child process was started: nothing was applied. *)
Definition nothing_applied (new : list Event) : Prop :=
  Forall (fun e => is_StartProcess e = false) new.

(** The events [ApplyFile] can produce: logging, the terminal, and child
    processes. *)
Definition terminal_or_process (e : Event) : Prop :=
  match e with
  | EvLog _ _ _ | EvCout _ | EvGetline _ | EvStartProcess _ _ _ => True
  | _ => False
  end.

(** Every run of [m] only appends events satisfying [P]. *)
Definition emits_only {A} (P : Event -> Prop) (m : Run A) : Prop :=
  forall w, exists new, extends_by w (snd (m w)) new /\ Forall P new.

(** Anything but the record of a download that failed. *)
Definition no_failed_download (e : Event) : Prop :=
  match e with
  | EvDownloadFile _ _ false => False
  | _ => True
  end.

(** Consent to the download: switched on in the configuration, or a line
    "y" or "Y" read from the operator. *)
Definition consent_given (env : Collaborators) (new : list Event) : Prop :=
  GetBoolDefault env "AllowAutoDBUpdate" false = true
  \/ exists answer, In (EvGetline answer) new /\ is_yes answer = true.

Definition download_failure_log (url : string) : Event :=
  EvLog LOG_FATAL "sql.updates" ("Failed to download " +:+ url +:+ ". Manual download required!").

(** What a run ended by a failed download looks like. *)
Definition ended_by_failed_download (env : Collaborators) (T : DatabaseType) (r : Outcome bool) (new : list Event) : Prop :=
  r = Normal false
  /\ nothing_applied new
  /\ last new = Some (download_failure_log (downloadUrl_of (GetTableName T)))
  /\ (T = WorldDatabaseConnection \/ T = HotfixDatabaseConnection)
  /\ consent_given env new.

Definition is_log (e : Event) : Prop :=
  match e with
  | EvLog _ _ _ => True
  | _ => False
  end.

(** What a process does with the module over its lifetime: the two
    operations of the executable locator, [Resolve]
    ([GetCorrectedMySQLExecutable]) and [Validate] ([CheckExecutable]),
    the three entry points of [DBUpdater<T>], and, in between, a change of
    the file system made from outside the process. *)
Inductive LocatorCall : Type :=
| Resolve
| Validate
| CreateDatabase (T : DatabaseType) (pool : DatabaseWorkerPool)
| UpdateDatabase (T : DatabaseType) (pool : DatabaseWorkerPool)
| PopulateDatabase (T : DatabaseType) (pool : DatabaseWorkerPool)
| Outside (fs : gmap string Node).

(** The state a call leaves. *)
Definition perform (env : Collaborators) (call : LocatorCall) (w : World) : World :=
  match call with
  | Resolve => w
  | Validate => snd (CheckExecutable env w)
  | CreateDatabase T pool => snd (Create env T pool w)
  | UpdateDatabase T pool => snd (Update env T pool w)
  | PopulateDatabase T pool => snd (Populate env T pool w)
  | Outside fs => set_files fs w
  end.

(** The calls that begin with [CheckExecutable]. *)
Definition validates (call : LocatorCall) : bool :=
  match call with
  | Validate | UpdateDatabase _ _ | PopulateDatabase _ _ => true
  | _ => false
  end.

(** Runs the calls in order and collects what each [Resolve] returned. *)
Fixpoint locator_session (env : Collaborators) (calls : list LocatorCall) (w : World)
    : list string * World :=
  match calls with
  | [] => ([], w)
  | Resolve :: rest =>
      let (answers, w') := locator_session env rest w in
      (GetCorrectedMySQLExecutable env w :: answers, w')
  | call :: rest => locator_session env rest (perform env call w)
  end.

(** At every validation of the session the cached path is a regular
    file. *)
Fixpoint cached_file_stays (env : Collaborators) (calls : list LocatorCall) (w : World) : Prop :=
  match calls with
  | [] => True
  | call :: rest =>
      (validates call = true -> is_regular_file env (corrected_path w) w = true)
      /\ cached_file_stays env rest (perform env call w)
  end.

(** Every run of [m] relates the state it starts in to the state it ends
    in by [R]. *)
Definition respects (R : World -> World -> Prop) {A} (m : Run A) : Prop :=
  forall w, R w (snd (m w)).

(** Neither the cached client path nor the file system changed. *)
Definition untouched (w w' : World) : Prop :=
  corrected_path w' = corrected_path w /\ files w' = files w.

Definition same_cache (w w' : World) : Prop :=
  corrected_path w' = corrected_path w.

(** [a] and then [b] occur next to each other in [args]. *)
Definition adjacent (a b : string) (args : list string) : Prop :=
  exists pre post, args = pre ++ a :: b :: post.

(** The command handed to the client after [-e]. *)
Definition source_command (path : Path) : string :=
  "BEGIN; SOURCE " +:+ path +:+ "; COMMIT;".

(** * Scenarios

    Concrete collaborators and worlds on which the statements below are
    evaluated. *)

Definition posix_build : Build := mkBuild false false 80000.

Definition scenario_fetcher (raises : bool) : UpdateFetcher -> bool -> bool -> bool -> Z -> Run UpdateResult :=
  fun _ _ _ _ _ =>
    if raises then throw (mkUpdateException "dead references")
    else ret (mkUpdateResult 2 2 0).

(** A server started from [/srv] whose configured client is [client] and
    whose search path yields [found]; every child process exits with
    [exit], every transfer delivers [body], the schema has [rows] tables. *)
Definition scenario_with (client : string) (found : Path)
    (auto_update : bool) (exit : Z) (body : option string)
    (rows : QueryResult) (fetcher_raises : bool) : Collaborators :=
  mkCollaborators posix_build
    client "/src"
    "/src/TDB_full_world.sql" "/src/TDB_full_hotfixes.sql"
    (fun key default => if String.eqb key "AllowAutoDBUpdate" then auto_update else default)
    (fun _ default => default)
    1 2 4 8
    "srv"
    (fun _ _ => found)
    (fun _ _ _ => exit)
    (fun _ => true)
    (fun _ _ => body)
    (fun _ _ _ => rows)
    (scenario_fetcher fetcher_raises).

(** The client is installed where the configuration says. *)
Definition scenario : bool -> Z -> option string -> QueryResult -> bool -> Collaborators :=
  scenario_with "/usr/bin/mysql" "".

(** The configured client is missing, the search path has [bin/mysql]. *)
Definition scenario_on_path : Collaborators :=
  scenario_with "/opt/mysql/bin/mysql" "bin/mysql" false 0 None None false.


Definition only_on_path : gmap string Node :=
  {[ "/srv" := Directory; "/srv/bin" := Directory;
     "/srv/bin/mysql" := RegularFile "ELF"; "/src" := Directory ]}.

Definition scenario_pool (name : string) : DatabaseWorkerPool :=
  mkPool (mkConnectionInfo "trinity" "secret" name "127.0.0.1" "3306" "").

Definition installed : gmap string Node :=
  {[ "/usr" := Directory; "/usr/bin" := Directory;
     "/usr/bin/mysql" := RegularFile "ELF";
     "/src" := Directory; "/src/sql" := Directory; "/src/sql/base" := Directory;
     "/srv" := Directory ]}.

(** The client has been moved to [/usr/local/bin]. *)
Definition moved_client : gmap string Node :=
  {[ "/usr" := Directory; "/usr/local" := Directory; "/usr/local/bin" := Directory;
     "/usr/local/bin/mysql" := RegularFile "ELF"; "/src" := Directory; "/srv" := Directory ]}.

(** The configured client is missing; the search path has [bin] of the
    working directory and then [/usr/local/bin]. *)
Definition scenario_client_moves : Collaborators :=
  mkCollaborators posix_build
    "/opt/mysql/bin/mysql" "/src"
    "/src/TDB_full_world.sql" "/src/TDB_full_hotfixes.sql"
    (fun _ default => default)
    (fun _ default => default)
    1 2 4 8
    "srv"
    (fun _ fs =>
       match fs !! "/srv/bin/mysql", fs !! "/usr/local/bin/mysql" with
       | Some (RegularFile _), _ => "bin/mysql"
       | _, Some (RegularFile _) => "/usr/local/bin/mysql"
       | _, _ => ""
       end)
    (fun _ _ _ => 0)
    (fun _ => true)
    (fun _ _ => None)
    (fun _ _ _ => None)
    (scenario_fetcher false).

(** A fresh process: nothing cached, nothing traced. *)
Definition boot (input : list string) (fs : gmap string Node) : World :=
  mkWorld "" input fs [].

(** * Further vocabulary *)

(** The child processes recorded in a trace: executable, argument vector
    and exit status, oldest first. *)
Definition started (new : list Event) : list (string * list string * Z) :=
  flat_map (fun e => match e with
                     | EvStartProcess x a c => [(x, a, c)]
                     | _ => []
                     end) new.

Definition executable_of (t : string * list string * Z) : string := fst (fst t).

Definition args_of (t : string * list string * Z) : list string := snd (fst t).

Definition exit_of (t : string * list string * Z) : Z := snd t.

(** The only exception [ApplyFile] constructs. *)
Definition canceled_or_failed : UpdateException :=
  mkUpdateException "Database update canceled or failed".

(** A run of [ApplyFile] from [w] to [w'] with outcome [r]: the input it
    consumed, the attempts that failed and the exit status of the last
    attempt. *)
Definition ApplyFile_run (exe : string) (given own : list string)
    (w : World) (r : Outcome unit) (w' : World)
    (new : list Event) (consumed : list string) (failed : list Z) (final : Z) : Prop :=
  extends_by w w' new
  /\ cin w = consumed ++ cin w'
  /\ map exit_of (started new) = failed ++ [final]
  /\ map args_of (started new) = given :: repeat own (length failed)
  /\ Forall (fun t => executable_of t = exe) (started new)
  /\ length failed = length (List.filter is_yes consumed)
  /\ Forall (fun c => c <> EXIT_SUCCESS) failed
  /\ match r with
     | Normal _ => final = EXIT_SUCCESS /\ Forall (fun l => is_yes l = true) consumed
     | Raised e => final <> EXIT_SUCCESS /\ e = canceled_or_failed
     end.

(** The exit statuses of the child processes recorded in a trace. *)
Definition exit_codes (new : list Event) : list Z := map exit_of (started new).

(** The lines read from [std::cin] recorded in a trace. *)
Definition answers (new : list Event) : list string :=
  flat_map (fun e => match e with
                     | EvGetline l => [l]
                     | _ => []
                     end) new.

(** The first line [Create] logs. *)
Definition Create_announcement (pool : DatabaseWorkerPool) : Event :=
  EvLog LOG_INFO "sql.updates"
    ("Database " +:+ DQ +:+ pool_database pool +:+ DQ
     +:+ " does not exist, automatically creating it...").

(** The state in which [Create] applies the scratch file, and what the
    application yields. *)
Definition Create_written (env : Collaborators) (pool : DatabaseWorkerPool) (w : World) : World :=
  snd (write env temp (create_statement pool)
         (snd (open_for_writing env temp (emit (Create_announcement pool) w)))).

Definition Create_applied (env : Collaborators) (pool : DatabaseWorkerPool) (w : World)
    : Outcome unit * World :=
  with_connection_info pool
    (fun host user password port_or_socket _ ssl =>
       ApplyFile8 env pool host user password port_or_socket "" ssl temp)
    (Create_written env pool w).

(** The prompt of the fallback in [ApplyFile]. *)
Definition fallback_prompt : Event :=
  EvCout "Use default TrinityCore SQL (TDB) files? [y/N]: ".

Definition windows_build : Build := mkBuild true false 80000.

(** The events of [DownloadFile]. *)
Definition is_download_event (e : Event) : Prop :=
  match e with
  | EvCurlInit _ | EvTransfer _ _ | EvDownloadFile _ _ _ => True
  | _ => False
  end.

(** The record of a write to a file. *)
Definition is_write (e : Event) : Prop :=
  match e with
  | EvWrite _ _ => True
  | _ => False
  end.

(** The first two lines of [Populate_base]. *)
Definition Populate_announcement (T : DatabaseType) : Event :=
  EvLog LOG_INFO "sql.updates" ("Updating the " +:+ GetTableName T +:+ " database to latest...").

Definition no_base_file_log : Event :=
  EvLog LOG_INFO "sql.updates" ">> No base file provided, skipped!".


(** The texts written to [std::cout] recorded in a trace. *)
Definition prompts (new : list Event) : list string :=
  flat_map (fun e => match e with
                     | EvCout t => [t]
                     | _ => []
                     end) new.

(** ** Further scenarios *)

(** The base file is on disk. *)
Definition with_base_file : gmap string Node :=
  <["/src/base.sql" := RegularFile "CREATE TABLE t (id INT);"]> installed.

(** [create_table.sql] of the working directory is a directory. *)
Definition scratch_is_directory : gmap string Node :=
  <["/srv/create_table.sql" := Directory]> installed.

(** A build whose revision data name no full database. *)
Definition scenario_without_base : Collaborators :=
  mkCollaborators posix_build
    "/usr/bin/mysql" "/src"
    "" ""
    (fun _ default => default)
    (fun _ default => default)
    1 2 4 8
    "srv"
    (fun _ _ => "")
    (fun _ _ _ => 0)
    (fun _ => true)
    (fun _ _ => None)
    (fun _ _ _ => None)
    (scenario_fetcher false).

(** * Properties *)

(** ** Stepping through a computation *)

Ltac run_unfold :=
  unfold bind, ret, throw, try_catch, modify, gets, TC_LOG, cout.

Lemma bind_Normal {A B} (m : Run A) (k : A -> Run B) w a w' :
  m w = (Normal a, w') -> bind m k w = k a w'.
Proof. intros H. unfold bind. now rewrite H. Qed.

(** ** Paths and the file system *)

Section FileSystem.

Variable env : Collaborators.

Lemma absolute_is_absolute p : is_absolute (absolute env p) = true.
Proof.
  unfold absolute. destruct (is_absolute p) eqn:E; [exact E|].
  unfold current_path.
  destruct (empty p); [reflexivity|].
  destruct (ends_with_separator _); reflexivity.
Qed.

Lemma absolute_idempotent p : absolute env (absolute env p) = absolute env p.
Proof. unfold absolute at 1. now rewrite absolute_is_absolute. Qed.

Lemma absolute_nonempty p : empty (absolute env p) = false.
Proof.
  pose proof (absolute_is_absolute p) as H.
  destruct (absolute env p); [discriminate H | reflexivity].
Qed.

Lemma locate_absolute p w : locate env (absolute env p) w = locate env p w.
Proof. unfold locate. now rewrite absolute_idempotent. Qed.

Lemma status_absolute p w :
  empty p = false -> status env (absolute env p) w = status env p w.
Proof.
  intros H. unfold status. now rewrite absolute_nonempty, H, locate_absolute.
Qed.

Lemma is_regular_file_absolute p w :
  empty p = false -> is_regular_file env (absolute env p) w = is_regular_file env p w.
Proof. intros H. unfold is_regular_file. now rewrite status_absolute. Qed.

(** Only the directories of a file system matter to path resolution. *)
Lemma resolve_from_ext fs fs' :
  (forall location, node_at fs location = Some Directory <-> node_at fs' location = Some Directory) ->
  forall rest here, resolve_from fs here rest = resolve_from fs' here rest.
Proof.
  intros Hdirs. induction rest as [|name rest IH]; intros here; simpl; [reflexivity|].
  rewrite !IH.
  destruct (node_at fs here) as [[c|]|] eqn:E, (node_at fs' here) as [[c'|]|] eqn:E';
    try reflexivity.
  all: try (apply Hdirs in E'; rewrite E in E'; discriminate E').
  all: try (apply Hdirs in E; rewrite E' in E; discriminate E).
Qed.

Lemma node_at_not_root fs location :
  node_at fs location <> Some Directory -> node_at fs location = fs !! key location.
Proof. destruct location; [intros H; now destruct H | reflexivity]. Qed.

(** Putting a regular file where no directory is, or taking away what
    is no directory, leaves the directories as they were. *)
Lemma node_at_insert_file fs location content location' :
  node_at fs location <> Some Directory ->
  node_at (<[key location := RegularFile content]> fs) location' = Some Directory
  <-> node_at fs location' = Some Directory.
Proof.
  intros Hfile. destruct location' as [|n l]; [reflexivity|].
  unfold node_at.
  destruct (decide (key location = key (n :: l))) as [Heq|Hne].
  - rewrite <- Heq, lookup_insert_eq, <- (node_at_not_root fs location Hfile).
    split; [discriminate | intros H; now destruct Hfile].
  - now rewrite lookup_insert_ne.
Qed.


Lemma node_at_inserted fs location node :
  node_at fs location <> Some Directory ->
  node_at (<[key location := node]> fs) location = Some node.
Proof.
  destruct location; [intros H; now destruct H|].
  intros _. unfold node_at. apply lookup_insert_eq.
Qed.


Lemma locate_insert_file p w location content :
  node_at (files w) location <> Some Directory ->
  locate env p (set_files (<[key location := RegularFile content]> (files w)) w) = locate env p w.
Proof.
  intros H. unfold locate. simpl. apply resolve_from_ext.
  intros l. now apply node_at_insert_file.
Qed.


(** The two outcomes of opening a file for writing. *)
Lemma open_for_writing_cases p w :
  open_for_writing env p w = (Normal false, w)
  \/ exists location,
       locate env p w = Some location
       /\ node_at (files w) location <> Some Directory
       /\ empty p = false
       /\ open_for_writing env p w
          = (Normal true, set_files (<[key location := RegularFile ""]> (files w)) w).
Proof.
  unfold open_for_writing. destruct (empty p); [now left|].
  destruct (locate env p w) as [location|]; [|now left].
  destruct (node_at (files w) location) as [[c|]|] eqn:E; [right|now left|right];
    exists location; rewrite E; repeat split; discriminate.
Qed.

Lemma open_for_writing_emit p e w :
  open_for_writing env p (emit e w)
  = (fst (open_for_writing env p w), emit e (snd (open_for_writing env p w))).
Proof.
  unfold open_for_writing. destruct (empty p); [reflexivity|].
  change (locate env p (emit e w)) with (locate env p w).
  destruct (locate env p w) as [location|]; [|reflexivity].
  change (files (emit e w)) with (files w).
  destruct (node_at (files w) location) as [[c|]|]; reflexivity.
Qed.

(** Writing to the file just opened. *)
Lemma write_opened p text w location :
  locate env p w = Some location ->
  node_at (files w) location <> Some Directory ->
  write env p text (set_files (<[key location := RegularFile ""]> (files w)) w)
  = (Normal tt,
     emit (EvWrite p text) (set_files (<[key location := RegularFile text]> (files w)) w)).
Proof.
  intros Hloc Hfile. unfold write, modify.
  rewrite (locate_insert_file p w location "" Hfile), Hloc.
  cbn [files set_files]. rewrite (node_at_inserted _ _ _ Hfile).
  cbn [files set_files]. now rewrite insert_insert_eq.
Qed.

Lemma status_written p w location content :
  empty p = false ->
  locate env p w = Some location ->
  node_at (files w) location <> Some Directory ->
  status env p (set_files (<[key location := RegularFile content]> (files w)) w)
  = Some (RegularFile content).
Proof.
  intros Hp Hloc Hfile. unfold status.
  rewrite Hp, (locate_insert_file p w location content Hfile), Hloc.
  cbn [files set_files]. now apply node_at_inserted.
Qed.

Lemma remove_written p w location content :
  locate env p w = Some location ->
  node_at (files w) location <> Some Directory ->
  remove env p (set_files (<[key location := RegularFile content]> (files w)) w)
  = (Normal tt, set_files (delete (key location) (files w)) w).
Proof.
  intros Hloc Hfile. unfold remove, modify.
  rewrite (locate_insert_file p w location content Hfile), Hloc.
  cbn [files set_files]. now rewrite delete_insert_eq.
Qed.


Lemma open_for_writing_same_cache p : respects same_cache (open_for_writing env p).
Proof.
  intros w. destruct (open_for_writing_cases p w) as [->|(l & _ & _ & _ & ->)]; reflexivity.
Qed.

Lemma write_same_cache p text : respects same_cache (write env p text).
Proof.
  intros w. unfold write, modify. simpl.
  destruct (locate env p w) as [location|]; [|reflexivity].
  destruct (node_at (files w) location) as [[c|]|]; reflexivity.
Qed.

Lemma locate_same_files p w w' : files w' = files w -> locate env p w' = locate env p w.
Proof. intros H. unfold locate. now rewrite H. Qed.

Lemma status_same_files p w w' : files w' = files w -> status env p w' = status env p w.
Proof. intros H. unfold status. now rewrite (locate_same_files p w w' H), H. Qed.

Lemma is_regular_file_same_files p w w' :
  files w' = files w -> is_regular_file env p w' = is_regular_file env p w.
Proof. intros H. unfold is_regular_file. now rewrite (status_same_files p w w' H). Qed.

Lemma remove_trace p w : trace (snd (remove env p w)) = trace w.
Proof.
  unfold remove, modify. simpl. destruct (locate env p w) as [location|]; reflexivity.
Qed.

Lemma remove_same_cache p : respects same_cache (remove env p).
Proof.
  intros w. unfold remove, modify. simpl.
  destruct (locate env p w) as [location|]; reflexivity.
Qed.

End FileSystem.

Section ApplyFileRecursion.

Variable env : Collaborators.

(** [ApplyFile_body] calls [self] only after a line of input was consumed. *)
Lemma ApplyFile_body_ext (self1 self2 : Path -> Run unit) pool h u p pos db s path w :
  (forall w', (length (cin w') < length (cin w))%nat -> self1 path w' = self2 path w') ->
  ApplyFile_body env self1 pool h u p pos db s path w
  = ApplyFile_body env self2 pool h u p pos db s path w.
Proof.
  intros Hself. unfold ApplyFile_body, ApplyFile_failed, StartProcess. run_unfold. simpl.
  destruct (negb _); [|reflexivity].
  destruct (negb _); [reflexivity|].
  unfold getline; simpl.
  destruct (cin w) as [|l rest] eqn:E; simpl; [reflexivity|].
  destruct (is_yes l); [|reflexivity].
  rewrite Hself; [reflexivity|]. simpl. lia.
Qed.

Lemma ApplyFile_nested_enough n m pool h u p pos db s path w :
  (length (cin w) <= n)%nat -> (length (cin w) <= m)%nat ->
  ApplyFile_nested env n pool h u p pos db s path w
  = ApplyFile_nested env m pool h u p pos db s path w.
Proof.
  revert m h u p pos db s w.
  induction n as [|n IH]; intros m h u p pos db s w Hn Hm.
  - destruct m as [|m]; [reflexivity|]. simpl.
    apply ApplyFile_body_ext. intros w' Hlt. lia.
  - destruct m as [|m]; simpl; apply ApplyFile_body_ext; intros w' Hlt.
    + lia.
    + unfold with_connection_info. apply IH; lia.
Qed.

(** The recursive equation of the C++ function. *)
Lemma ApplyFile8_unfold pool h u p pos db s path w :
  ApplyFile8 env pool h u p pos db s path w
  = ApplyFile_body env (ApplyFile env pool) pool h u p pos db s path w.
Proof.
  unfold ApplyFile8.
  destruct (length (cin w)) as [|n] eqn:E; simpl; apply ApplyFile_body_ext; intros w' Hlt.
  - lia.
  - unfold ApplyFile, with_connection_info, ApplyFile8.
    apply ApplyFile_nested_enough; lia.
Qed.

End ApplyFileRecursion.

(** ** What a computation appends to the trace *)

Lemma extends_by_refl w : extends_by w w [].
Proof. unfold extends_by. now rewrite app_nil_r. Qed.

Lemma extends_by_trans w1 w2 w3 n1 n2 :
  extends_by w1 w2 n1 -> extends_by w2 w3 n2 -> extends_by w1 w3 (n1 ++ n2).
Proof. unfold extends_by. intros H1 H2. rewrite H2, H1. now rewrite app_assoc. Qed.

Lemma extends_by_inj w w' n1 n2 : extends_by w w' n1 -> extends_by w w' n2 -> n1 = n2.
Proof. unfold extends_by. intros H1 H2. rewrite H1 in H2. now apply app_inv_head in H2. Qed.

Section Emits.

Context {P : Event -> Prop}.

Lemma emits_only_ret {A} (a : A) : emits_only P (ret a).
Proof. intros w. exists []. split; [apply extends_by_refl | constructor]. Qed.

Lemma emits_only_throw {A} e : emits_only P (@throw A e).
Proof. intros w. exists []. split; [apply extends_by_refl | constructor]. Qed.

Lemma emits_only_gets {A} (f : World -> A) : emits_only P (gets f).
Proof. intros w. exists []. split; [apply extends_by_refl | constructor]. Qed.

Lemma emits_only_emit e : P e -> emits_only P (modify (emit e)).
Proof. intros He w. exists [e]. split; [reflexivity | repeat constructor; exact He]. Qed.

Lemma emits_only_bind {A B} (m : Run A) (k : A -> Run B) :
  emits_only P m -> (forall a, emits_only P (k a)) -> emits_only P (bind m k).
Proof.
  intros Hm Hk w. unfold bind.
  destruct (Hm w) as (n1 & E1 & F1).
  destruct (m w) as [[a|e] w1]; simpl in *.
  - destruct (Hk a w1) as (n2 & E2 & F2).
    exists (n1 ++ n2). split; [eapply extends_by_trans; eauto | now apply Forall_app].
  - exists n1. auto.
Qed.

Lemma emits_only_try_catch {A} (body : Run A) handler :
  emits_only P body -> (forall e, emits_only P (handler e)) -> emits_only P (try_catch body handler).
Proof.
  intros Hm Hk w. unfold try_catch.
  destruct (Hm w) as (n1 & E1 & F1).
  destruct (body w) as [[a|e] w1]; simpl in *.
  - exists n1. auto.
  - destruct (Hk e w1) as (n2 & E2 & F2).
    exists (n1 ++ n2). split; [eapply extends_by_trans; eauto | now apply Forall_app].
Qed.

Lemma emits_only_log level filter message :
  P (EvLog level filter message) -> emits_only P (TC_LOG level filter message).
Proof. apply emits_only_emit. Qed.

Lemma emits_only_cout text : P (EvCout text) -> emits_only P (cout text).
Proof. apply emits_only_emit. Qed.

Lemma emits_only_getline : (forall l, P (EvGetline l)) -> emits_only P getline.
Proof.
  intros H w. unfold getline. destruct (cin w) as [|l rest].
  - exists [EvGetline ""]. split; [reflexivity | repeat constructor; apply H].
  - exists [EvGetline l]. split; [reflexivity | repeat constructor; apply H].
Qed.

End Emits.

Ltac emits_step :=
  lazymatch goal with
  | |- emits_only _ (ret _) => apply emits_only_ret
  | |- emits_only _ (throw _) => apply emits_only_throw
  | |- emits_only _ (gets _) => apply emits_only_gets
  | |- emits_only _ (TC_LOG _ _ _) => apply emits_only_log
  | |- emits_only _ (cout _) => apply emits_only_cout
  | |- emits_only _ getline => apply emits_only_getline
  | |- emits_only _ (modify (emit _)) => apply emits_only_emit
  | |- emits_only _ (bind _ _) => apply emits_only_bind; [|intros ?]
  | |- emits_only _ (try_catch _ _) => apply emits_only_try_catch; [|intros ?]
  end.

Section ApplyFileEvents.

Variable env : Collaborators.

Lemma StartProcess_emits (P : Event -> Prop) exe args logger input secure :
  (forall code, P (EvStartProcess exe args code)) ->
  emits_only P (StartProcess env exe args logger input secure).
Proof.
  intros H w. unfold StartProcess. run_unfold. simpl.
  eexists [_]. split; [reflexivity | repeat constructor; apply H].
Qed.

Lemma ApplyFile_failed_emits self pool path :
  (forall q, emits_only terminal_or_process (self q)) ->
  emits_only terminal_or_process (ApplyFile_failed env self pool path).
Proof.
  intros Hself. unfold ApplyFile_failed.
  emits_step; [emits_step|].
  destruct (negb _).
  - repeat emits_step; exact I.
  - emits_step; [emits_step; exact I|].
    emits_step; [emits_step; exact I|].
    emits_step; [emits_step; intros; exact I|].
    destruct (is_yes _).
    + emits_step; [emits_step; exact I|].
      emits_step; [|emits_step].
      emits_step; [apply Hself|].
      emits_step; [emits_step; exact I|emits_step].
    + emits_step; [emits_step; exact I|emits_step].
Qed.

Lemma ApplyFile_body_emits self pool h u p pos db s path :
  (forall q, emits_only terminal_or_process (self q)) ->
  emits_only terminal_or_process (ApplyFile_body env self pool h u p pos db s path).
Proof.
  intros Hself. unfold ApplyFile_body.
  emits_step; [emits_step|].
  emits_step; [apply StartProcess_emits; intros; exact I|].
  destruct (negb _); [|emits_step].
  now apply ApplyFile_failed_emits.
Qed.

Lemma ApplyFile_nested_emits n pool h u p pos db s path :
  emits_only terminal_or_process (ApplyFile_nested env n pool h u p pos db s path).
Proof.
  revert h u p pos db s path. induction n as [|n IH]; intros; simpl;
    apply ApplyFile_body_emits; intros q.
  - emits_step.
  - unfold with_connection_info. apply IH.
Qed.

Lemma ApplyFile8_emits pool h u p pos db s path :
  emits_only terminal_or_process (ApplyFile8 env pool h u p pos db s path).
Proof. intros w. unfold ApplyFile8. apply ApplyFile_nested_emits. Qed.

Lemma ApplyFile_emits pool path :
  emits_only terminal_or_process (ApplyFile env pool path).
Proof. unfold ApplyFile, with_connection_info. apply ApplyFile8_emits. Qed.

End ApplyFileEvents.

(** ** Database policy *)

Lemma GetTableName_inj T1 T2 : GetTableName T1 = GetTableName T2 -> T1 = T2.
Proof. destruct T1, T2; simpl; intros H; try reflexivity; discriminate H. Qed.

(** C9. The file instantiates [DBUpdater] once for each of the four
    database types; different types have different profiles; the base
    location is [LOCATION_DOWNLOAD] exactly for the world and hotfix
    databases, which carry a specialisation, and the auth and character
    databases fall back on the primary template, [LOCATION_REPOSITORY]. *)
Theorem policy_profile_per_database (env : Collaborators) :
  (NoDup instantiations /\ forall T, In T instantiations)
  /\ (forall T1 T2, profile env T1 = profile env T2 <-> T1 = T2)
  /\ (forall T, GetBaseLocationType T = LOCATION_DOWNLOAD
                <-> T = WorldDatabaseConnection \/ T = HotfixDatabaseConnection)
  /\ (GetBaseLocationType_specialization LoginDatabaseConnection = None
      /\ GetBaseLocationType LoginDatabaseConnection = LOCATION_REPOSITORY)
  /\ (GetBaseLocationType_specialization CharacterDatabaseConnection = None
      /\ GetBaseLocationType CharacterDatabaseConnection = LOCATION_REPOSITORY).
Proof.
  repeat split.
  - apply (bool_decide_unpack _). vm_compute. reflexivity.
  - intros T. destruct T; simpl; auto.
  - intros H. apply GetTableName_inj. now apply (f_equal table_name) in H.
  - now intros ->.
  - destruct T; simpl; intros H; auto; discriminate H.
  - intros [-> | ->]; reflexivity.
Qed.

(** ** The argument vector *)

Lemma adjacent_snoc a b pre : adjacent a b ((pre ++ [a]) ++ [b]).
Proof. exists pre, []. now rewrite <- app_assoc. Qed.

Lemma adjacent_app a b args more : adjacent a b args -> adjacent a b (args ++ more).
Proof.
  intros (pre & post & ->). exists pre, (post ++ more).
  now rewrite <- app_assoc.
Qed.

Lemma ApplyFile_args_command b host user password port_or_socket database ssl path :
  adjacent "-e" (source_command path)
    (ApplyFile_args b host user password port_or_socket database ssl path).
Proof.
  unfold ApplyFile_args, emplace_back, source_command, generic_string.
  destruct (negb (empty database)); [apply adjacent_app|]; apply adjacent_snoc.
Qed.

Lemma ApplyFile_args_port b host user password port_or_socket database ssl path :
  _WIN32 b = false ->
  let args := ApplyFile_args b host user password port_or_socket database ssl path in
  if isdigit (front port_or_socket) then In ("-P" +:+ port_or_socket) args
  else In "-P0" args /\ In "--protocol=SOCKET" args /\ In ("-S" +:+ port_or_socket) args.
Proof.
  intros Hwin. unfold ApplyFile_args, emplace_back. rewrite Hwin.
  destruct (isdigit (front port_or_socket)); simpl negb; cbv iota;
    repeat match goal with |- context [if ?c then _ else _] => destruct c end;
    repeat split; repeat rewrite in_app_iff; simpl; tauto.
Qed.

Section ArgumentVector.

Variable env : Collaborators.

(** What [ApplyFile8] does first: it starts the client with the vector
    built by [ApplyFile_args]. *)
Lemma ApplyFile8_starts_client pool h u p pos db s path w :
  exists code rest,
    extends_by w (snd (ApplyFile8 env pool h u p pos db s path w))
      (EvStartProcess (GetCorrectedMySQLExecutable env w)
         (ApplyFile_args (build env) h u p pos db s path) code :: rest)
    /\ Forall terminal_or_process rest.
Proof.
  rewrite ApplyFile8_unfold. unfold ApplyFile_body, StartProcess. run_unfold. simpl.
  set (code := process_exit env _ _ _). exists code.
  destruct (negb (code =? EXIT_SUCCESS)).
  - match goal with |- context [ApplyFile_failed ?e ?f ?q ?pa ?w1] =>
      destruct (ApplyFile_failed_emits e f q pa (ApplyFile_emits e q) w1) as (new & E & F)
    end.
    exists new. split; [|exact F].
    unfold extends_by in *. rewrite E. simpl. now rewrite <- app_assoc.
  - exists []. split; [reflexivity | constructor].
Qed.

(** C6. Every invocation of [ApplyFile] starts the client with a vector
    in which [-e] is followed by exactly [BEGIN; SOURCE <path>; COMMIT;]
    for the given path; on the non-Windows branch the vector contains
    [-P<value>] when the first character of the port-or-socket value is a
    decimal digit, and [-P0], [--protocol=SOCKET] and [-S<value>]
    otherwise. *)
Theorem ApplyFile_argument_vector pool host user password port_or_socket database ssl path w :
  let args := ApplyFile_args (build env) host user password port_or_socket database ssl path in
  (exists executable code rest,
      extends_by w (snd (ApplyFile8 env pool host user password port_or_socket database ssl path w))
        (EvStartProcess executable args code :: rest))
  /\ adjacent "-e" ("BEGIN; SOURCE " +:+ path +:+ "; COMMIT;") args
  /\ (_WIN32 (build env) = false ->
      if isdigit (front port_or_socket) then In ("-P" +:+ port_or_socket) args
      else In "-P0" args /\ In "--protocol=SOCKET" args /\ In ("-S" +:+ port_or_socket) args).
Proof.
  intros args. split; [|split].
  - destruct (ApplyFile8_starts_client pool host user password port_or_socket database ssl path w)
      as (code & rest & E & _).
    eauto.
  - apply ApplyFile_args_command.
  - intros Hwin. now apply ApplyFile_args_port.
Qed.

End ArgumentVector.

(** On a POSIX build, with a TCP port. *)
Lemma ApplyFile_argument_vector_witness :
  let env := scenario false 0 None None false in
  let args := ApplyFile_args posix_build "127.0.0.1" "trinity" "secret" "3306" "world" "" "/src/base.sql" in
  _WIN32 (build env) = false
  /\ adjacent "-e" "BEGIN; SOURCE /src/base.sql; COMMIT;" args
  /\ In "-P3306" args.
Proof.
  intros env args.
  pose proof (ApplyFile_argument_vector env (scenario_pool "world")
                "127.0.0.1" "trinity" "secret" "3306" "world" "" "/src/base.sql"
                (boot [] installed)) as (_ & Hcmd & Hport).
  split; [reflexivity|]. split; [exact Hcmd|].
  exact (Hport eq_refl).
Defined.

(** ** Reading the first character of the port-or-socket value *)

Lemma subscript_front s : subscript s 0 = Some (front s).
Proof. destruct s; reflexivity. Qed.

(** C10, as stated, fails at the empty value: [port_or_socket[0]] with
    [pos == size()] is inside the contract of [operator[]] and yields the
    null character, and [ApplyFile] goes on to build the named-socket
    flags and to start the client with them. *)
Lemma empty_port_or_socket_is_read_within_contract :
  let args := ["-h127.0.0.1"; "-utrinity"; "-psecret"; "-P0"; "--protocol=SOCKET"; "-S";
               "--default-character-set=utf8mb4"; "--max-allowed-packet=1GB";
               "-e"; "BEGIN; SOURCE /src/base.sql; COMMIT;"; "world"] in
  subscript "" 0 = Some NUL
  /\ ~ (forall port_or_socket : string, port_or_socket = "" -> subscript port_or_socket 0 = None)
  /\ ApplyFile_args posix_build "127.0.0.1" "trinity" "secret" "" "world" "" "/src/base.sql" = args
  /\ ApplyFile8 (scenario false 0 None None false) (scenario_pool "world")
       "127.0.0.1" "trinity" "secret" "" "world" "" "/src/base.sql" (boot [] installed)
     = (Normal tt, emit (EvStartProcess "/usr/bin/mysql" args 0) (boot [] installed)).
Proof.
  intros args.
  split; [reflexivity|]. split; [|split; vm_compute; reflexivity].
  intros H. specialize (H "" eq_refl). discriminate H.
Qed.

(** C10, amended.  [ApplyFile] has no precondition on the port-or-socket
    value: the read of [port_or_socket[0]] is inside the contract of
    [operator[]] for every value.  For a non-empty value it reads the first
    character of the string; for the empty value it reads the terminating
    null character, which is not a digit, so that on the non-Windows
    branch the named-socket flags are built. *)
Theorem port_or_socket_read_within_contract
    (b : Build) (host user password port_or_socket database ssl : string) (path : Path) :
  subscript port_or_socket 0 = Some (front port_or_socket)
  /\ (port_or_socket <> "" -> String.get 0 port_or_socket = Some (front port_or_socket))
  /\ (port_or_socket = "" ->
      front port_or_socket = NUL
      /\ (_WIN32 b = false ->
          let args := ApplyFile_args b host user password port_or_socket database ssl path in
          In "-P0" args /\ In "--protocol=SOCKET" args /\ In "-S" args)).
Proof.
  split; [apply subscript_front|]. split.
  - destruct port_or_socket; [congruence | reflexivity].
  - intros ->. split; [reflexivity|]. intros Hwin.
    exact (ApplyFile_args_port b host user password "" database ssl path Hwin).
Qed.

Lemma port_or_socket_read_within_contract_witness :
  subscript "" 0 = Some NUL
  /\ String.get 0 "3306" = Some "3"%char
  /\ In "-S" (ApplyFile_args posix_build "127.0.0.1" "trinity" "secret" "" "world" "" "/src/base.sql").
Proof.
  pose proof (port_or_socket_read_within_contract posix_build
                "127.0.0.1" "trinity" "secret" "" "world" "" "/src/base.sql") as (H0 & _ & Hempty).
  pose proof (port_or_socket_read_within_contract posix_build
                "127.0.0.1" "trinity" "secret" "3306" "world" "" "/src/base.sql") as (_ & Hget & _).
  split; [exact H0|]. split.
  - apply Hget. discriminate.
  - destruct (Hempty eq_refl) as (_ & Hargs). apply (Hargs eq_refl).
Defined.

(** ** What a computation leaves alone *)

Section Respects.

Context (R : World -> World -> Prop) (R_refl : forall w, R w w)
        (R_trans : forall w1 w2 w3, R w1 w2 -> R w2 w3 -> R w1 w3).

Lemma respects_ret {A} (a : A) : respects R (ret a).
Proof. intros w. apply R_refl. Qed.

Lemma respects_throw {A} e : respects R (@throw A e).
Proof. intros w. apply R_refl. Qed.

Lemma respects_gets {A} (f : World -> A) : respects R (gets f).
Proof. intros w. apply R_refl. Qed.

Lemma respects_modify f : (forall w, R w (f w)) -> respects R (modify f).
Proof. intros H w. apply H. Qed.

Lemma respects_bind {A B} (m : Run A) (k : A -> Run B) :
  respects R m -> (forall a, respects R (k a)) -> respects R (bind m k).
Proof.
  intros Hm Hk w. unfold bind. specialize (Hm w).
  destruct (m w) as [[a|e] w1]; simpl in *; [|exact Hm].
  eapply R_trans; [exact Hm | apply Hk].
Qed.

Lemma respects_try_catch {A} (body : Run A) handler :
  respects R body -> (forall e, respects R (handler e)) -> respects R (try_catch body handler).
Proof.
  intros Hm Hk w. unfold try_catch. specialize (Hm w).
  destruct (body w) as [[a|e] w1]; simpl in *; [exact Hm|].
  eapply R_trans; [exact Hm | apply Hk].
Qed.

Lemma respects_getline :
  (forall e w, R w (emit e w)) -> (forall l w, R w (set_cin l w)) -> respects R getline.
Proof.
  intros He Hc w. unfold getline. destruct (cin w); simpl; [apply He|].
  eapply R_trans; [apply Hc | apply He].
Qed.

End Respects.

Lemma respects_weaken (R R' : World -> World -> Prop) {A} (m : Run A) :
  (forall w w', R w w' -> R' w w') -> respects R m -> respects R' m.
Proof. intros H Hm w. apply H, Hm. Qed.

Lemma untouched_refl w : untouched w w.
Proof. split; reflexivity. Qed.

Lemma untouched_trans w1 w2 w3 : untouched w1 w2 -> untouched w2 w3 -> untouched w1 w3.
Proof. intros [H1 H2] [H3 H4]. split; congruence. Qed.

Lemma same_cache_refl w : same_cache w w.
Proof. reflexivity. Qed.

Lemma same_cache_trans w1 w2 w3 : same_cache w1 w2 -> same_cache w2 w3 -> same_cache w1 w3.
Proof. unfold same_cache. congruence. Qed.

Ltac respects_step refl trans :=
  lazymatch goal with
  | |- respects _ (ret _) => apply (respects_ret _ refl)
  | |- respects _ (throw _) => apply (respects_throw _ refl)
  | |- respects _ (gets _) => apply (respects_gets _ refl)
  | |- respects _ (TC_LOG _ _ _) => apply respects_modify; intros ?; repeat split
  | |- respects _ (cout _) => apply respects_modify; intros ?; repeat split
  | |- respects _ (modify _) => apply respects_modify; intros ?; repeat split
  | |- respects _ getline => apply (respects_getline _ trans); intros ? ?; repeat split
  | |- respects _ (bind _ _) => apply (respects_bind _ trans); [|intros ?]
  | |- respects _ (try_catch _ _) => apply (respects_try_catch _ trans); [|intros ?]
  | |- respects _ (if ?c then _ else _) => destruct c
  | |- respects _ (match ?c with _ => _ end) => destruct c
  end.

Ltac untouched_steps := repeat respects_step untouched_refl untouched_trans.
Ltac same_cache_steps := repeat respects_step same_cache_refl same_cache_trans.

Section Frames.

Variable env : Collaborators.

Lemma StartProcess_untouched exe args logger input secure :
  respects untouched (StartProcess env exe args logger input secure).
Proof. unfold StartProcess. untouched_steps. Qed.

Lemma ApplyFile_failed_untouched self pool path :
  (forall q, respects untouched (self q)) ->
  respects untouched (ApplyFile_failed env self pool path).
Proof. intros Hself. unfold ApplyFile_failed. untouched_steps. apply Hself. Qed.

Lemma ApplyFile_nested_untouched n pool h u p pos db s path :
  respects untouched (ApplyFile_nested env n pool h u p pos db s path).
Proof.
  revert h u p pos db s path. induction n as [|n IH]; intros; simpl; unfold ApplyFile_body.
  - untouched_steps; [apply StartProcess_untouched|].
    apply ApplyFile_failed_untouched. intros q. untouched_steps.
  - untouched_steps; [apply StartProcess_untouched|].
    apply ApplyFile_failed_untouched. intros q. unfold with_connection_info. apply IH.
Qed.

(** [ApplyFile] changes neither the cache nor the file system. *)
Lemma ApplyFile8_untouched pool h u p pos db s path :
  respects untouched (ApplyFile8 env pool h u p pos db s path).
Proof. intros w. unfold ApplyFile8. apply ApplyFile_nested_untouched. Qed.

Lemma ApplyFile_untouched pool path : respects untouched (ApplyFile env pool path).
Proof. unfold ApplyFile, with_connection_info. apply ApplyFile8_untouched. Qed.

Lemma untouched_same_cache w w' : untouched w w' -> same_cache w w'.
Proof. now intros [H _]. Qed.

Lemma DownloadFile_same_cache url dest : respects same_cache (DownloadFile env url dest).
Proof.
  unfold DownloadFile, DownloadFile_body.
  same_cache_steps;
    first [apply open_for_writing_same_cache | apply write_same_cache].
Qed.

Lemma resolve_base_same_cache dbName url base :
  respects same_cache (resolve_base env dbName url base).
Proof. unfold resolve_base. same_cache_steps. all: apply DownloadFile_same_cache. Qed.

Lemma Populate_base_same_cache T pool : respects same_cache (Populate_base env T pool).
Proof.
  unfold Populate_base, apply_base. same_cache_steps.
  - apply resolve_base_same_cache.
  - eapply respects_weaken; [apply untouched_same_cache | apply ApplyFile_untouched].
Qed.

Lemma Create_same_cache T pool : respects same_cache (Create env T pool).
Proof.
  unfold Create. same_cache_steps;
    first [ apply open_for_writing_same_cache
          | apply write_same_cache
          | apply remove_same_cache
          | idtac ].
  unfold with_connection_info.
  eapply respects_weaken; [apply untouched_same_cache | apply ApplyFile8_untouched].
Qed.

(** After validation, [Populate] does not touch the cache. *)
Lemma Populate_cache T pool w :
  corrected_path (snd (Populate env T pool w)) = corrected_path (snd (CheckExecutable env w)).
Proof.
  unfold Populate. unfold bind at 1.
  destruct (CheckExecutable env w) as [[ok|e] w1]; simpl; [|reflexivity].
  assert (respects same_cache
            (if negb ok then ret false
             else
               populated <-
                 (if negb (String.eqb (GetTableName T) "World")
                     && negb (String.eqb (GetTableName T) "Hotfixes")
                  then
                    result <- Retrieve env pool "SHOW TABLES" ;;
                    ret (match result with
                         | Some rows => (0 <? rows)%N
                         | None => false
                         end)
                  else ret false) ;;
               if populated then ret true else Populate_base env T pool)) as H.
  { unfold Retrieve. same_cache_steps; apply Populate_base_same_cache. }
  apply H.
Qed.

End Frames.

(** ** The executable locator *)

Section ExecutableLocator.

Variable env : Collaborators.

Lemma CheckExecutable_unfold w :
  CheckExecutable env w =
  if is_regular_file env (GetCorrectedMySQLExecutable env w) w then (Normal true, w)
  else
    let exe := SearchExecutableInPath env "mysql" (files w) in
    if negb (empty exe) && is_regular_file env exe w then
      (Normal true, set_corrected_path (absolute env exe) w)
    else
      (Normal false,
       emit (EvLog LOG_FATAL "sql.updates"
               ("Didn't find any executable MySQL binary at '" +:+ absolute env exe
                +:+ "' or in path, correct the path in the *.conf (" +:+ DQ
                +:+ "MySQLExecutable" +:+ DQ +:+ ").")) w).
Proof.
  unfold CheckExecutable. run_unfold. simpl.
  destruct (is_regular_file env (GetCorrectedMySQLExecutable env w) w); simpl; [reflexivity|].
  destruct (negb _ && _); reflexivity.
Qed.

(** [CheckExecutable] never throws and appends at most a log line. *)
Lemma CheckExecutable_total w :
  exists ok new,
    fst (CheckExecutable env w) = Normal ok
    /\ extends_by w (snd (CheckExecutable env w)) new /\ Forall is_log new
    /\ files (snd (CheckExecutable env w)) = files w
    /\ cin (snd (CheckExecutable env w)) = cin w.
Proof.
  rewrite CheckExecutable_unfold.
  destruct (is_regular_file _ _ w).
  - exists true, []. simpl. repeat split; [apply extends_by_refl | constructor].
  - cbv zeta. destruct (negb _ && _).
    + exists true, []. simpl. repeat split; [|constructor].
      unfold extends_by. simpl. now rewrite app_nil_r.
    + eexists false, [_]. simpl. repeat split. repeat constructor.
Qed.

Lemma Resolve_cached w :
  empty (corrected_path w) = false -> GetCorrectedMySQLExecutable env w = corrected_path w.
Proof. intros H. unfold GetCorrectedMySQLExecutable. now rewrite H. Qed.

(** What [CheckExecutable] does to the cache. *)
Lemma CheckExecutable_cache w :
  corrected_path (snd (CheckExecutable env w)) = corrected_path w
  \/ (is_regular_file env (GetCorrectedMySQLExecutable env w) w = false
      /\ fst (CheckExecutable env w) = Normal true
      /\ corrected_path (snd (CheckExecutable env w))
         = absolute env (SearchExecutableInPath env "mysql" (files w))).
Proof.
  rewrite CheckExecutable_unfold.
  destruct (is_regular_file env _ w); [now left|]. cbv zeta.
  destruct (negb (empty _) && _); [right | left]; repeat split.
Qed.

Lemma CheckExecutable_cache_nonempty w :
  empty (corrected_path w) = false ->
  empty (corrected_path (snd (CheckExecutable env w))) = false.
Proof.
  intros H. destruct (CheckExecutable_cache w) as [-> | (_ & _ & ->)];
    [exact H | apply absolute_nonempty].
Qed.

Lemma CheckExecutable_cache_kept w :
  empty (corrected_path w) = false ->
  is_regular_file env (corrected_path w) w = true ->
  CheckExecutable env w = (Normal true, w).
Proof.
  intros H Hreg. rewrite CheckExecutable_unfold, Resolve_cached by exact H.
  now rewrite Hreg.
Qed.

(** The fetcher is outside this file.  What is assumed of it here is that
    it leaves the static of the locator alone. *)
Hypothesis fetcher_keeps_cache :
  forall pool redundancy rehash archived count,
    respects same_cache
      (UpdateFetcher_Update env (updateFetcher env pool) redundancy rehash archived count).

(** After validation, [Update] does not touch the cache. *)
Lemma Update_cache T pool w :
  corrected_path (snd (Update env T pool w)) = corrected_path (snd (CheckExecutable env w)).
Proof.
  unfold Update. unfold bind at 1.
  destruct (CheckExecutable env w) as [[ok|e] w1]; simpl; [|reflexivity].
  match goal with |- corrected_path (snd (?m w1)) = _ => assert (respects same_cache m) as H end.
  { unfold run_fetcher. same_cache_steps. apply fetcher_keeps_cache. }
  apply H.
Qed.

(** Every call leaves the cache as it is or as its validation leaves
    it. *)
Lemma perform_cache call w :
  corrected_path (perform env call w)
  = if validates call then corrected_path (snd (CheckExecutable env w)) else corrected_path w.
Proof.
  destruct call as [| |T pool|T pool|T pool|fs]; simpl; try reflexivity.
  - apply (Create_same_cache env T pool w).
  - apply Update_cache.
  - apply Populate_cache.
Qed.

Lemma perform_cache_nonempty call w :
  empty (corrected_path w) = false -> empty (corrected_path (perform env call w)) = false.
Proof.
  intros H. rewrite perform_cache. destruct (validates call); [|exact H].
  now apply CheckExecutable_cache_nonempty.
Qed.

Lemma perform_cache_kept call w :
  empty (corrected_path w) = false ->
  (validates call = true -> is_regular_file env (corrected_path w) w = true) ->
  corrected_path (perform env call w) = corrected_path w.
Proof.
  intros H Hreg. rewrite perform_cache. destruct (validates call); [|reflexivity].
  now rewrite (CheckExecutable_cache_kept w H (Hreg eq_refl)).
Qed.

Lemma Resolve_or_not (call : LocatorCall) : call = Resolve \/ call <> Resolve.
Proof. destruct call; (now left) || (right; discriminate). Qed.

Lemma locator_session_step call calls w :
  call <> Resolve ->
  locator_session env (call :: calls) w = locator_session env calls (perform env call w).
Proof. destruct call; intros H; try reflexivity. now destruct H. Qed.

(** C8, amended.  [Resolve] returns the cached path when it is non-empty
    and the configured client path otherwise.  When [Validate] succeeds
    by finding the client on the search path, the absolute located path
    is cached.  Over the lifetime of the process (any sequence of
    [Resolve], [Validate], [Create], [Update] and [Populate], with the file
    system changing in between) a non-empty cache is never emptied; a call
    changes it only by a validation that finds the resolved path to be no
    regular file and the client on the search path, and then the cache is
    what the search finds.  So each later [Resolve] returns the cached
    path for as long as that path is a regular file at every
    validation. *)
Theorem executable_locator_cache :
  (forall w,
      GetCorrectedMySQLExecutable env w =
      if empty (corrected_path w) then GetMySQLExecutable env else corrected_path w)
  /\ (forall w w',
         is_regular_file env (GetCorrectedMySQLExecutable env w) w = false ->
         CheckExecutable env w = (Normal true, w') ->
         let located := absolute env (SearchExecutableInPath env "mysql" (files w)) in
         corrected_path w' = located
         /\ located <> ""
         /\ is_absolute located = true
         /\ is_regular_file env located w' = true)
  /\ (forall calls w,
         empty (corrected_path w) = false ->
         empty (corrected_path (snd (locator_session env calls w))) = false)
  /\ (forall call w,
         corrected_path (perform env call w) = corrected_path w
         \/ (validates call = true
             /\ is_regular_file env (GetCorrectedMySQLExecutable env w) w = false
             /\ corrected_path (perform env call w)
                = absolute env (SearchExecutableInPath env "mysql" (files w))))
  /\ (forall calls w,
         empty (corrected_path w) = false ->
         cached_file_stays env calls w ->
         Forall (eq (corrected_path w)) (fst (locator_session env calls w))
         /\ corrected_path (snd (locator_session env calls w)) = corrected_path w).
Proof.
  split; [|split; [|split; [|split]]].
  - intros w. unfold GetCorrectedMySQLExecutable. now destruct (empty (corrected_path w)).
  - intros w w' Hnot Hcheck located.
    rewrite CheckExecutable_unfold, Hnot in Hcheck. cbv zeta in Hcheck.
    destruct (negb (empty _) && _) eqn:Efound; [|discriminate Hcheck].
    inversion Hcheck; subst w'; clear Hcheck.
    apply andb_prop in Efound as [Hne Hreg].
    apply negb_true_iff in Hne.
    pose proof (absolute_nonempty env (SearchExecutableInPath env "mysql" (files w))) as Hloc.
    fold located in Hloc.
    split; [reflexivity|]. split; [|split].
    + intros Heq. rewrite Heq in Hloc. discriminate Hloc.
    + apply absolute_is_absolute.
    + unfold located.
      change (is_regular_file env (absolute env (SearchExecutableInPath env "mysql" (files w))) w = true).
      now rewrite is_regular_file_absolute.
  - induction calls as [|call calls IH]; intros w Hne; [exact Hne|].
    destruct (Resolve_or_not call) as [->|Hcall].
    + simpl. specialize (IH w Hne).
      destruct (locator_session env calls w) as [answers w']. exact IH.
    + rewrite (locator_session_step call calls w Hcall).
      apply IH. now apply perform_cache_nonempty.
  - intros call w. rewrite perform_cache. destruct (validates call); [|now left].
    destruct (CheckExecutable_cache w) as [H | (Hnot & _ & H)]; [now left | right].
    repeat split; assumption.
  - induction calls as [|call calls IH]; intros w Hne Hstays.
    + split; [constructor | reflexivity].
    + destruct Hstays as [Hreg Hstays].
      pose proof (perform_cache_kept call w Hne Hreg) as Hkept.
      destruct (Resolve_or_not call) as [->|Hcall].
      * simpl in *. specialize (IH w Hne Hstays).
        destruct (locator_session env calls w) as [answers w']. simpl in *.
        destruct IH as [IH1 IH2]. split; [|exact IH2].
        constructor; [|exact IH1]. now rewrite Resolve_cached.
      * rewrite (locator_session_step call calls w Hcall).
        rewrite <- Hkept. apply IH; [now rewrite Hkept | exact Hstays].
Qed.

End ExecutableLocator.

(** The configured client is missing and [bin/mysql] is found on the
    search path of a process started in [/srv]; the server then creates,
    populates and updates a database. *)
Lemma executable_locator_cache_witness :
  let env := scenario_on_path in
  let w := boot [] only_on_path in
  let w' := set_corrected_path "/srv/bin/mysql" w in
  let pool := scenario_pool "world" in
  let calls := [Resolve; CreateDatabase WorldDatabaseConnection pool; Validate; Resolve;
                PopulateDatabase WorldDatabaseConnection pool;
                UpdateDatabase WorldDatabaseConnection pool; Resolve] in
  is_regular_file env (GetCorrectedMySQLExecutable env w) w = false
  /\ CheckExecutable env w = (Normal true, w')
  /\ corrected_path w' = "/srv/bin/mysql"
  /\ cached_file_stays env calls w'
  /\ Forall (eq "/srv/bin/mysql") (fst (locator_session env calls w')).
Proof.
  intros env w w' pool calls.
  assert (forall pool redundancy rehash archived count,
             respects same_cache
               (UpdateFetcher_Update env (updateFetcher env pool) redundancy rehash archived count))
    as H0 by (intros p a b c d x; reflexivity).
  assert (is_regular_file env (GetCorrectedMySQLExecutable env w) w = false) as H1
    by (vm_compute; reflexivity).
  assert (CheckExecutable env w = (Normal true, w')) as H2 by (vm_compute; reflexivity).
  assert (cached_file_stays env calls w') as H3 by (vm_compute; tauto).
  destruct (executable_locator_cache env H0) as (_ & H & _ & _ & Hstays).
  destruct (H w w' H1 H2) as (Hc & _).
  split; [exact H1|]. split; [exact H2|]. split; [exact Hc|]. split; [exact H3|].
  exact (proj1 (Hstays calls w' eq_refl H3)).
Defined.

(** C8, as stated, fails once the cached file is gone: [Validate] finds
    the client on the search path and caches [/srv/bin/mysql]; the client
    is then moved to [/usr/local/bin]; the next [Validate] searches again
    and overwrites the cache, and [Resolve] returns the new path. *)
Lemma cached_path_replaced_when_file_is_gone :
  let env := scenario_client_moves in
  let w := boot [] only_on_path in
  fst (CheckExecutable env w) = Normal true
  /\ is_regular_file env (GetCorrectedMySQLExecutable env w) w = false
  /\ fst (locator_session env [Validate; Resolve; Outside moved_client; Validate; Resolve] w)
     = ["/srv/bin/mysql"; "/usr/local/bin/mysql"].
Proof. vm_compute. repeat split. Qed.

(** ** [Update] *)

Section UpdateOutcome.

Variable env : Collaborators.

(** C3. [Update] never throws.  It returns [true] exactly when the client
    executable validates, the source directory exists and the call of the
    fetcher returns normally.  When validation fails it returns [false] in
    the state validation left; when the directory is missing it returns
    [false] after two log lines; when the fetcher throws it returns
    [false] in the very state the fetcher left.  Validation itself only
    logs. *)
Theorem Update_succeeds_iff (T : DatabaseType) (pool : DatabaseWorkerPool) (w : World) :
  let checked := CheckExecutable env w in
  let w1 := snd checked in
  let w2 := emit (EvLog LOG_INFO "sql.updates" ("Updating " +:+ GetTableName T +:+ " database...")) w1 in
  let fetched := run_fetcher env pool w2 in
  (fst (Update env T pool w) = Normal true
   <-> fst checked = Normal true
       /\ is_directory env (GetSourceDirectory env) w1 = true
       /\ exists result, fst fetched = Normal result)
  /\ (exists ok, fst (Update env T pool w) = Normal ok)
  /\ (fst checked = Normal false -> Update env T pool w = (Normal false, w1))
  /\ (fst checked = Normal true ->
      is_directory env (GetSourceDirectory env) w1 = false ->
      exists message, Update env T pool w = (Normal false, emit (EvLog LOG_ERROR "sql.updates" message) w2))
  /\ (fst checked = Normal true ->
      is_directory env (GetSourceDirectory env) w1 = true ->
      forall e, fst fetched = Raised e -> Update env T pool w = (Normal false, snd fetched))
  /\ (exists new, extends_by w w1 new /\ Forall is_log new).
Proof.
  intros checked w1 w2 fetched.
  destruct (CheckExecutable_total env w) as (ok & new & Hok & Hext & Hlog & _).
  fold checked in Hok, Hext, Hlog. fold w1 in Hext.
  assert (checked = (Normal ok, w1)) as Hchecked.
  { unfold w1. destruct checked as [o w']. simpl in *. now subst o. }
  assert (Update env T pool w =
          if negb ok then (Normal false, w1)
          else if negb (is_directory env (GetSourceDirectory env) w1)
               then (Normal false,
                     emit (EvLog LOG_ERROR "sql.updates"
                       ("DBUpdater: The given source directory " +:+ GetSourceDirectory env
                        +:+ " does not exist, change the path to the directory where your sql directory exists (for example c:\source\trinitycore). Shutting down.")) w2)
               else match fetched with
                    | (Normal result, w3) =>
                        (Normal true,
                         emit (EvLog LOG_INFO "sql.updates"
                                 (if (updated result =? 0)%N then
                                    ">> " +:+ GetTableName T +:+ " database is up-to-date! "
                                    +:+ ("Containing " +:+ pretty (recent result) +:+ " new and "
                                         +:+ pretty (archived result) +:+ " archived updates.")
                                  else
                                    ">> Applied " +:+ pretty (updated result) +:+ " "
                                    +:+ (if (updated result =? 1)%N then "query" else "queries")
                                    +:+ ". "
                                    +:+ ("Containing " +:+ pretty (recent result) +:+ " new and "
                                         +:+ pretty (archived result) +:+ " archived updates."))) w3)
                    | (Raised _, w3) => (Normal false, w3)
                    end) as HU.
  { unfold Update. unfold bind at 1. fold checked. rewrite Hchecked.
    destruct ok; simpl negb; cbv iota; [|reflexivity].
    run_unfold. simpl. fold w2.
    change (is_directory env (GetSourceDirectory env) w2)
      with (is_directory env (GetSourceDirectory env) w1).
    destruct (is_directory env (GetSourceDirectory env) w1); simpl; [|reflexivity].
    fold fetched. destruct fetched as [[result|e] w3]; [|reflexivity].
    destruct (updated result =? 0)%N; reflexivity. }
  rewrite HU, Hok. clear HU.
  split; [|split; [|split; [|split; [|split]]]].
  - destruct ok; simpl.
    + destruct (is_directory env (GetSourceDirectory env) w1); simpl.
      * destruct fetched as [[result|e] w3]; simpl.
        -- split; [eauto|reflexivity].
        -- split; [discriminate|]. intros (_ & _ & r & Hr). discriminate Hr.
      * split; [discriminate|]. intros (_ & Hd & _). discriminate Hd.
    + split; [discriminate|]. intros (Hc & _). discriminate Hc.
  - destruct ok; simpl; [|eauto].
    destruct (is_directory env (GetSourceDirectory env) w1); simpl; [|eauto].
    destruct fetched as [[result|e] w3]; eauto.
  - intros Hf. inversion Hf; subst ok. reflexivity.
  - intros Ht Hd. inversion Ht; subst ok. rewrite Hd. simpl. eauto.
  - intros Ht Hd e He. inversion Ht; subst ok. rewrite Hd. simpl.
    destruct fetched as [[result|e'] w3]; simpl in *; [discriminate He | reflexivity].
  - eauto.
Qed.

End UpdateOutcome.

(** The fetcher throws on an installed server: [Update] returns [false]
    and the trace ends with the call of the fetcher. *)
Lemma Update_succeeds_iff_witness :
  let env := scenario false 0 None None true in
  let r := Update env WorldDatabaseConnection (scenario_pool "world") (boot [] installed) in
  fst r = Normal false
  /\ trace (snd r) = [EvLog LOG_INFO "sql.updates" "Updating World database..."; EvFetcherUpdate "/src"].
Proof.
  intros env r.
  destruct (Update_succeeds_iff env WorldDatabaseConnection (scenario_pool "world") (boot [] installed))
    as (_ & _ & _ & _ & Hraise & _).
  specialize (Hraise eq_refl eq_refl (mkUpdateException "dead references") eq_refl).
  unfold r. rewrite Hraise. split; reflexivity.
Defined.

(** ** [Create] *)

Section CreateScratchFile.

Variable env : Collaborators.

(** The state in which [Create] applies the scratch file. *)
Lemma Create_written_opened pool w location :
  locate env temp w = Some location ->
  node_at (files w) location <> Some Directory ->
  open_for_writing env temp w
  = (Normal true, set_files (<[key location := RegularFile ""]> (files w)) w) ->
  open_for_writing env temp (emit (Create_announcement pool) w)
  = (Normal true,
     set_files (<[key location := RegularFile ""]> (files w)) (emit (Create_announcement pool) w))
  /\ write env temp (create_statement pool)
       (set_files (<[key location := RegularFile ""]> (files w)) (emit (Create_announcement pool) w))
     = (Normal tt, Create_written env pool w)
  /\ Create_written env pool w
     = emit (EvWrite temp (create_statement pool))
         (set_files (<[key location := RegularFile (create_statement pool)]> (files w))
            (emit (Create_announcement pool) w)).
Proof.
  intros Hloc Hfile Hopen.
  assert (open_for_writing env temp (emit (Create_announcement pool) w)
          = (Normal true,
             set_files (<[key location := RegularFile ""]> (files w))
               (emit (Create_announcement pool) w))) as Hopened
    by (rewrite open_for_writing_emit, Hopen; reflexivity).
  pose proof (write_opened env temp (create_statement pool)
                (emit (Create_announcement pool) w) location Hloc Hfile) as Hwrite.
  split; [exact Hopened|].
  unfold Create_written. rewrite Hopened. cbn [snd].
  change (files (emit (Create_announcement pool) w)) with (files w) in Hwrite.
  rewrite Hwrite. split; reflexivity.
Qed.

Lemma Create_written_frame pool w :
  fst (open_for_writing env temp w) = Normal true ->
  extends_by w (Create_written env pool w)
    [Create_announcement pool; EvWrite temp (create_statement pool)]
  /\ corrected_path (Create_written env pool w) = corrected_path w
  /\ cin (Create_written env pool w) = cin w
  /\ is_regular_file env temp (Create_written env pool w) = true.
Proof.
  intros Hopen.
  destruct (open_for_writing_cases env temp w) as [H | (location & Hloc & Hfile & Hp & H)];
    [rewrite H in Hopen; discriminate Hopen|].
  destruct (Create_written_opened pool w location Hloc Hfile H) as (_ & _ & ->).
  split; [unfold extends_by; simpl; now rewrite <- app_assoc|].
  split; [reflexivity|]. split; [reflexivity|].
  unfold is_regular_file.
  rewrite (status_same_files env temp
             (set_files (<[key location := RegularFile (create_statement pool)]> (files w)) w))
    by reflexivity.
  now rewrite (status_written env temp w location _ Hp Hloc Hfile).
Qed.

(** [Create], by the outcome of opening the scratch file and of applying
    it. *)
Lemma Create_unfold T pool w :
  Create env T pool w =
  match fst (open_for_writing env temp w) with
  | Normal true =>
      let applied := Create_applied env pool w in
      match fst applied with
      | Normal _ =>
          (Normal true,
           snd (remove env temp (emit (EvLog LOG_INFO "sql.updates" "Done.") (snd applied))))
      | Raised _ =>
          (Normal false,
           snd (remove env temp
                  (emit (EvLog LOG_FATAL "sql.updates" (privileges_diagnostic pool)) (snd applied))))
      end
  | _ =>
      (Normal false,
       emit (EvLog LOG_FATAL "sql.updates"
               ("Failed to create temporary query file " +:+ DQ +:+ temp +:+ DQ +:+ "!"))
         (emit (Create_announcement pool) w))
  end.
Proof.
  unfold Create, generic_string.
  unfold TC_LOG at 1. unfold bind at 1. unfold modify at 1.
  fold (Create_announcement pool).
  unfold bind at 1. rewrite open_for_writing_emit.
  destruct (open_for_writing_cases env temp w) as [H | (location & Hloc & Hfile & _ & H)];
    rewrite H; cbn [fst snd negb].
  - reflexivity.
  - destruct (Create_written_opened pool w location Hloc Hfile H) as (_ & Hwritten & _).
    rewrite (bind_Normal _ _ _ _ _ Hwritten).
    unfold bind at 1. unfold try_catch. unfold bind at 1.
    fold (Create_applied env pool w).
    destruct (Create_applied env pool w) as [[[]|e] w3]; reflexivity.
Qed.


End CreateScratchFile.


(** ** [Populate]: the gate in front of the base snapshot *)


Section PopulateGate.

Variable env : Collaborators.




End PopulateGate.


(** ** [Populate]: a download that fails *)

Section DownloadFailure.

Variable env : Collaborators.

(** Case analysis on a scrutinee that contains no other case analysis. *)
Ltac case_innermost :=
  match goal with
  | |- context [match ?c with _ => _ end] =>
      lazymatch c with
      | context [match _ with _ => _ end] => fail
      | _ => destruct c eqn:?; simpl
      end
  end.

Ltac trace_eq := unfold extends_by; simpl; rewrite <- ?app_assoc; reflexivity.

Lemma DownloadFile_spec url dest w :
  exists ok new,
    fst (DownloadFile env url dest w) = Normal ok
    /\ extends_by w (snd (DownloadFile env url dest w)) new
    /\ nothing_applied new
    /\ (ok = true -> Forall no_failed_download new)
    /\ (ok = false -> In (EvDownloadFile url dest false) new).
Proof.
  unfold DownloadFile, DownloadFile_body, open_for_writing, write. run_unfold. simpl.
  repeat case_innermost;
    eexists _, _; (split; [reflexivity|]); (split; [trace_eq|]); simpl;
    (split; [repeat constructor|]);
    (split; [intros H; try discriminate H; repeat constructor
            |intros H; try discriminate H; simpl; tauto]).
Qed.

Ltac events :=
  repeat first
    [ assumption
    | apply List.Forall_nil
    | apply List.Forall_cons; [simpl; auto|]
    | apply Forall_app; split ].

Ltac use_DownloadFile_spec ok dnew Hext Hq Ht Hf :=
  match goal with
  | |- context [DownloadFile env ?u ?d ?w0] =>
      let Hfst := fresh "Hfst" in
      let r := fresh "r" in
      let w' := fresh "w'" in
      destruct (DownloadFile_spec u d w0) as (ok & dnew & Hfst & Hext & Hq & Ht & Hf);
      destruct (DownloadFile env u d w0) as [r w'];
      simpl in Hfst, Hext; subst r
  end.

Lemma resolve_base_spec dbName url base w :
  exists r new,
    fst (resolve_base env dbName url base w) = Normal r
    /\ extends_by w (snd (resolve_base env dbName url base w)) new
    /\ nothing_applied new
    /\ match r with
       | None =>
           In (EvDownloadFile url base false) new
           /\ last new = Some (download_failure_log url)
           /\ consent_given env new
       | Some _ => Forall no_failed_download new
       end.
Proof.
  unfold resolve_base, consent_given, nothing_applied, generic_string.
  destruct (GetBoolDefault env "AllowAutoDBUpdate" false) eqn:Eauto.
  - run_unfold. simpl.
    use_DownloadFile_spec ok dnew Hext Hq Ht Hf.
    destruct ok; simpl.
    + eexists (Some _), _. split; [reflexivity|].
      split; [unfold extends_by in *; simpl; rewrite Hext; simpl; rewrite <- ?app_assoc; reflexivity|].
      specialize (Ht eq_refl). split; events.
    + eexists None, _. split; [reflexivity|].
      split; [unfold extends_by in *; simpl; rewrite Hext; simpl; rewrite <- ?app_assoc; reflexivity|].
      specialize (Hf eq_refl). split; [events|]. split; [|split].
      * simpl. rewrite ?in_app_iff. tauto.
      * simpl. rewrite ?last_cons, last_snoc. reflexivity.
      * now left.
  - run_unfold. unfold getline. simpl.
    destruct (cin w) as [|answer rest] eqn:Ecin; simpl.
    + (* end of input: both prompts read the empty line *)
      rewrite Ecin. simpl.
      eexists (Some _), _. split; [reflexivity|].
      split; [trace_eq|]. simpl. split; events.
    + destruct (is_yes answer) eqn:Eyes; simpl.
      * use_DownloadFile_spec ok dnew Hext Hq Ht Hf.
        destruct ok; simpl.
        -- eexists (Some _), _. split; [reflexivity|].
           split; [unfold extends_by in *; simpl; rewrite Hext; simpl; rewrite <- ?app_assoc; reflexivity|].
           specialize (Ht eq_refl). split; events.
        -- eexists None, _. split; [reflexivity|].
           split; [unfold extends_by in *; simpl; rewrite Hext; simpl; rewrite <- ?app_assoc; reflexivity|].
           specialize (Hf eq_refl). split; [events|]. split; [|split].
           ++ simpl. rewrite ?in_app_iff. tauto.
           ++ simpl. rewrite ?last_cons, last_snoc. reflexivity.
           ++ right. exists answer. split; [|exact Eyes]. simpl. tauto.
      * destruct rest as [|answer2 rest2]; simpl.
        -- eexists (Some _), _. split; [reflexivity|].
           split; [trace_eq|]. simpl. split; events.
        -- destruct (is_yes answer2); simpl.
           ++ destruct rest2 as [|localFile rest3]; simpl.
              ** eexists (Some _), _. split; [reflexivity|].
                 split; [trace_eq|]. simpl. split; events.
              ** destruct (empty localFile); simpl;
                   (eexists (Some _), _; split; [reflexivity|];
                    split; [trace_eq|]; simpl; split; events).
           ++ eexists (Some _), _. split; [reflexivity|].
              split; [trace_eq|]. simpl. split; events.
Qed.

Lemma consent_given_app pre new : consent_given env new -> consent_given env (pre ++ new).
Proof.
  intros [H | (answer & Hin & Hyes)]; [now left|].
  right. exists answer. split; [|exact Hyes]. apply in_app_iff. now right.
Qed.

Lemma last_app_Some {A} (pre new : list A) x : last new = Some x -> last (pre ++ new) = Some x.
Proof. intros H. rewrite last_app. now rewrite H. Qed.

Lemma ended_by_failed_download_app T r pre new :
  nothing_applied pre ->
  ended_by_failed_download env T r new -> ended_by_failed_download env T r (pre ++ new).
Proof.
  intros Hpre (Hr & Hq & Hl & HT & Hc). repeat split.
  - exact Hr.
  - apply Forall_app. split; assumption.
  - now apply last_app_Some.
  - exact HT.
  - now apply consent_given_app.
Qed.

Lemma Populate_base_spec T pool w :
  exists new,
    extends_by w (snd (Populate_base env T pool w)) new
    /\ (Forall no_failed_download new
        \/ ended_by_failed_download env T (fst (Populate_base env T pool w)) new).
Proof.
  set (Q := fun p : Outcome bool * World =>
              exists new, extends_by w (snd p) new
                /\ (Forall no_failed_download new \/ ended_by_failed_download env T (fst p) new)).
  change (Q (Populate_base env T pool w)).
  unfold Populate_base. cbv zeta. unfold generic_string.
  unfold bind at 1. unfold TC_LOG at 1. unfold modify at 1.
  set (w0 := emit _ w).
  assert (extends_by w w0 [EvLog LOG_INFO "sql.updates"
            ("Updating the " +:+ GetTableName T +:+ " database to latest...")]) as E0
    by reflexivity.
  destruct (empty (GetBaseFile env T)).
  - unfold Q. eexists. split; [eapply extends_by_trans; [exact E0 | reflexivity]|].
    left. simpl. events.
  - assert (forall base w1 pre,
              extends_by w w1 pre -> Forall no_failed_download pre ->
              exists new,
                extends_by w (snd (apply_base env T pool base w1)) new
                /\ Forall no_failed_download new) as Happly.
    { intros base w1 pre E1 F1. unfold apply_base. run_unfold. simpl.
      match goal with |- context [ApplyFile env pool base ?w2] =>
        destruct (ApplyFile_emits env pool base w2) as (anew & Ea & Fa);
        destruct (ApplyFile env pool base w2) as [[[]|e] w3]
      end; simpl in *;
        (eexists; split;
         [unfold extends_by in *; simpl; rewrite Ea; simpl; rewrite E1;
          rewrite <- ?app_assoc; reflexivity|]);
        (assert (Forall no_failed_download anew)
           by (eapply Forall_impl; [exact Fa | intros [] Hx; simpl in *; tauto]));
        events. }
    destruct (negb (empty (downloadUrl_of (GetTableName T)))) eqn:Eurl.
    + destruct (resolve_base_spec (GetTableName T) (downloadUrl_of (GetTableName T))
                  (GetBaseFile env T) w0) as (r & rnew & Hfst & Hext & Hq & Hr).
      unfold bind at 1.
      destruct (resolve_base env (GetTableName T) (downloadUrl_of (GetTableName T))
                  (GetBaseFile env T) w0) as [r' w1].
      simpl in Hfst, Hext. subst r'.
      pose proof (extends_by_trans _ _ _ _ _ E0 Hext) as E1.
      destruct r as [base|].
      * destruct (Happly base w1 _ E1) as (new & En & Fn); [simpl; events|].
        unfold Q. exists new. split; [exact En | now left].
      * unfold Q. exists ([EvLog LOG_INFO "sql.updates"
                   ("Updating the " +:+ GetTableName T +:+ " database to latest...")] ++ rnew).
        split; [exact E1|]. right.
        apply ended_by_failed_download_app; [events|].
        destruct Hr as (Hin & Hlast & Hc).
        repeat split; try assumption.
        destruct T; simpl in Eurl; try discriminate Eurl; auto.
    + unfold bind at 1. unfold ret at 1.
      destruct (Happly (GetBaseFile env T) w0 _ E0) as (new & En & Fn); [events|].
      unfold Q. exists new. split; [exact En | now left].
Qed.

Lemma Populate_spec T pool w :
  exists new,
    extends_by w (snd (Populate env T pool w)) new
    /\ (Forall no_failed_download new
        \/ ended_by_failed_download env T (fst (Populate env T pool w)) new).
Proof.
  set (Q := fun p : Outcome bool * World =>
              exists new, extends_by w (snd p) new
                /\ (Forall no_failed_download new \/ ended_by_failed_download env T (fst p) new)).
  change (Q (Populate env T pool w)).
  unfold Populate.
  destruct (CheckExecutable_total env w) as (ok & new1 & Hok & Hext & Hlog & _).
  unfold bind at 1.
  destruct (CheckExecutable env w) as [r w1]. simpl in Hok, Hext. subst r.
  assert (Forall no_failed_download new1) as F1
    by (eapply Forall_impl; [exact Hlog | intros [] Hx; simpl in *; tauto]).
  assert (nothing_applied new1) as Q1
    by (eapply Forall_impl; [exact Hlog | intros [] Hx; simpl in *; tauto]).
  destruct ok; simpl negb; cbv iota zeta.
  - assert (forall w2 pre,
              extends_by w w2 pre -> Forall no_failed_download pre -> nothing_applied pre ->
              Q (Populate_base env T pool w2)) as Hbase.
    { intros w2 pre E2 F2 Q2. unfold Q.
      destruct (Populate_base_spec T pool w2) as (bnew & Eb & [Fb | Hb]).
      - exists (pre ++ bnew). split; [eapply extends_by_trans; eauto|].
        left. events.
      - exists (pre ++ bnew). split; [eapply extends_by_trans; eauto|].
        right. now apply ended_by_failed_download_app. }
    destruct (negb (String.eqb (GetTableName T) "World")
              && negb (String.eqb (GetTableName T) "Hotfixes")).
    + unfold Retrieve. run_unfold. simpl.
      set (result := pool_Query env _ _ _).
      set (w2 := emit _ w1).
      assert (extends_by w w2 (new1 ++ [EvQuery (database (GetConnectionInfo pool)) "SHOW TABLES" result])) as E2
        by (eapply extends_by_trans; [exact Hext | reflexivity]).
      destruct (match result with Some rows => (0 <? rows)%N | None => false end).
      * unfold Q. eexists. split; [exact E2|]. left. events.
      * apply (Hbase w2 _ E2); unfold nothing_applied; events.
    + unfold bind at 1. unfold ret at 1. apply (Hbase w1 _ Hext); assumption.
  - unfold Q. exists new1. split; [exact Hext | now left].
Qed.

(** C7. Whenever a download fails during [Populate], the database is the
    world or the hotfix one and consent had been given (by the
    configuration or by an answer "y" or "Y"); [Populate] returns [false];
    the fatal log line about the download is the last thing it did; and no
    child process was started, so that no base file was applied. *)
Theorem Populate_failed_download (T : DatabaseType) (pool : DatabaseWorkerPool)
    (w : World) (new : list Event) :
  extends_by w (snd (Populate env T pool w)) new ->
  (exists url dest, In (EvDownloadFile url dest false) new) ->
  fst (Populate env T pool w) = Normal false
  /\ nothing_applied new
  /\ last new = Some (download_failure_log (downloadUrl_of (GetTableName T)))
  /\ (T = WorldDatabaseConnection \/ T = HotfixDatabaseConnection)
  /\ consent_given env new.
Proof.
  intros Hext (url & dest & Hin).
  destruct (Populate_spec T pool w) as (new' & Hext' & [Hno | Hend]).
  - rewrite (extends_by_inj _ _ _ _ Hext Hext') in Hin.
    rewrite List.Forall_forall in Hno. destruct (Hno _ Hin).
  - now rewrite (extends_by_inj _ _ _ _ Hext Hext').
Qed.

End DownloadFailure.

(** The operator of the world database answers "y" and the transfer
    fails. *)
Lemma Populate_failed_download_witness :
  let env := scenario false 0 None None false in
  let pool := scenario_pool "world" in
  let w := boot ["y"] installed in
  let new := trace (snd (Populate env WorldDatabaseConnection pool w)) in
  extends_by w (snd (Populate env WorldDatabaseConnection pool w)) new
  /\ In (EvDownloadFile world_url "/src/TDB_full_world.sql" false) new
  /\ fst (Populate env WorldDatabaseConnection pool w) = Normal false
  /\ nothing_applied new.
Proof.
  intros env pool w new.
  assert (extends_by w (snd (Populate env WorldDatabaseConnection pool w)) new) as H1
    by reflexivity.
  assert (In (EvDownloadFile world_url "/src/TDB_full_world.sql" false) new) as H2
    by (vm_compute; repeat first [left; reflexivity | right]).
  assert (exists url dest, In (EvDownloadFile url dest false) new) as H3
    by (exists world_url, "/src/TDB_full_world.sql"; exact H2).
  destruct (Populate_failed_download env WorldDatabaseConnection pool w new H1 H3)
    as (Hr & Hq & _).
  repeat split; assumption.
Defined.

(** ** [Populate]: what happens when the application fails *)

(** C1 fails on the code.  The block of [Populate] that applies the base
    file returns [true] whatever [ApplyFile] does.  At two inputs the
    client exits with status 1: first the bundled base file of the auth
    database is not on disk, then it is and the operator declines the
    fallback; each time [ApplyFile] throws, and each time [Populate]
    returns [true] after logging that the update completed. *)
Theorem Populate_reports_success_after_failed_application :
  (forall env T pool base w, fst (apply_base env T pool base w) = Normal true)
  /\ let env := scenario false 1 None None false in
     let pool := scenario_pool "auth" in
     let base := "/src/sql/base/auth_database.sql" in
     let missing := boot [] installed in
     let present :=
       boot ["n"] (<[base := RegularFile "CREATE TABLE account (id INT);"]> installed) in
     (is_regular_file env base missing = false
      /\ fst (ApplyFile env pool base missing)
         = Raised (mkUpdateException "Database update canceled or failed")
      /\ fst (Populate env LoginDatabaseConnection pool missing) = Normal true
      /\ last (trace (snd (Populate env LoginDatabaseConnection pool missing)))
         = Some (EvLog LOG_INFO "sql.updates" ">> Auth Database update completed!"))
     /\ (is_regular_file env base present = true
         /\ In (EvGetline "n") (trace (snd (ApplyFile env pool base present)))
         /\ fst (ApplyFile env pool base present)
            = Raised (mkUpdateException "Database update canceled or failed")
         /\ fst (Populate env LoginDatabaseConnection pool present) = Normal true
         /\ last (trace (snd (Populate env LoginDatabaseConnection pool present)))
            = Some (EvLog LOG_INFO "sql.updates" ">> Auth Database update completed!")).
Proof.
  split.
  - intros env T pool base w. unfold apply_base. run_unfold. simpl.
    match goal with |- context [ApplyFile env pool base ?w1] =>
      destruct (ApplyFile env pool base w1) as [[[]|e] w2]
    end; reflexivity.
  - intros env pool base missing present.
    split.
    + repeat split; vm_compute; reflexivity.
    + split; [vm_compute; reflexivity|].
      split; [vm_compute; repeat first [left; reflexivity | right]|].
      repeat split; vm_compute; reflexivity.
Qed.

(** C2 fails on the code.  The operator of the world database declines
    the download.  Declining the local file as well, the run logs that the
    update was canceled and then starts the client on the default base
    file; accepting and giving no path, it logs that the update is skipped
    and then starts the client on the empty path. *)
Theorem Populate_applies_after_declining :
  let env := scenario false 0 None None false in
  let pool := scenario_pool "world" in
  let connection := ["-h127.0.0.1"; "-utrinity"; "-psecret"; "-P3306";
                     "--default-character-set=utf8mb4"; "--max-allowed-packet=1GB"; "-e"] in
  trace (snd (Populate env WorldDatabaseConnection pool (boot ["n"; "n"] installed)))
  = [EvLog LOG_INFO "sql.updates" "Updating the World database to latest...";
     EvCout "Do you want to download and apply the latest World database update? [y/N]: ";
     EvGetline "n";
     EvCout "Do you want to use an existing local SQL file instead? [y/N]: ";
     EvGetline "n";
     EvLog LOG_INFO "sql.updates" "Update canceled by user.";
     EvLog LOG_INFO "sql.updates" ">> Applying '/src/TDB_full_world.sql'...";
     EvStartProcess "/usr/bin/mysql"
       (connection ++ ["BEGIN; SOURCE /src/TDB_full_world.sql; COMMIT;"; "world"]) 0;
     EvLog LOG_INFO "sql.updates" ">> World Database update completed!"]
  /\ trace (snd (Populate env WorldDatabaseConnection pool (boot ["n"; "y"] installed)))
     = [EvLog LOG_INFO "sql.updates" "Updating the World database to latest...";
        EvCout "Do you want to download and apply the latest World database update? [y/N]: ";
        EvGetline "n";
        EvCout "Do you want to use an existing local SQL file instead? [y/N]: ";
        EvGetline "y";
        EvCout "Enter full path to local SQL file: ";
        EvGetline "";
        EvLog LOG_INFO "sql.updates" "No local file provided, skipping database update.";
        EvLog LOG_INFO "sql.updates" "Using existing local file ''";
        EvLog LOG_INFO "sql.updates" ">> Applying ''...";
        EvStartProcess "/usr/bin/mysql"
          (connection ++ ["BEGIN; SOURCE ; COMMIT;"; "world"]) 0;
        EvLog LOG_INFO "sql.updates" ">> World Database update completed!"]
  /\ ~ nothing_applied (trace (snd (Populate env WorldDatabaseConnection pool (boot ["n"; "n"] installed))))
  /\ ~ nothing_applied (trace (snd (Populate env WorldDatabaseConnection pool (boot ["n"; "y"] installed)))).
Proof.
  intros env pool connection.
  assert (forall l, (exists exe args code, In (EvStartProcess exe args code) l) -> ~ nothing_applied l)
    as Happlied.
  { intros l (exe & args & code & Hin) Hno.
    unfold nothing_applied in Hno. rewrite List.Forall_forall in Hno.
    specialize (Hno _ Hin). discriminate Hno. }
  split; [vm_compute; reflexivity|].
  split; [vm_compute; reflexivity|].
  split; apply Happlied; eexists _, _, _; vm_compute;
    repeat first [left; reflexivity | right].
Qed.

(** * Further properties *)

(** ** [ApplyFile]: attempts, answers and outcomes *)

Ltac appended := unfold extends_by; simpl; rewrite <- ?app_assoc; reflexivity.

Lemma started_app a b : started (a ++ b) = started a ++ started b.
Proof. unfold started. apply flat_map_app. Qed.

Section ApplyFileRuns.

Variable env : Collaborators.

(** One attempt after the other.  [ApplyFile] starts the resolved client
    on its own argument vector; each later attempt follows an accepted
    fallback and uses the attributes of the pool.  All attempts but the
    last failed. *)
Lemma ApplyFile8_runs n :
  forall pool h u p pos db s path w,
    length (cin w) = n ->
    exists new consumed failed final,
      ApplyFile_run (GetCorrectedMySQLExecutable env w)
        (ApplyFile_args (build env) h u p pos db s path)
        (with_connection_info pool (ApplyFile_args (build env)) path)
        w (fst (ApplyFile8 env pool h u p pos db s path w))
        (snd (ApplyFile8 env pool h u p pos db s path w))
        new consumed failed final
      /\ (answers new = []
          \/ (hd final failed <> EXIT_SUCCESS /\ is_regular_file env path w = true)).
Proof.
  induction n as [n IH] using lt_wf_ind.
  intros pool h u p pos db s path w Hn.
  rewrite ApplyFile8_unfold.
  unfold ApplyFile_body, StartProcess. run_unfold. simpl.
  set (exe := GetCorrectedMySQLExecutable env w).
  set (given := ApplyFile_args (build env) h u p pos db s path).
  set (own := with_connection_info pool (ApplyFile_args (build env)) path).
  set (c0 := process_exit env exe given (trace w)).
  set (w1 := emit (EvStartProcess exe given c0) w).
  destruct (c0 =? EXIT_SUCCESS) eqn:Ec0; simpl.
  { (* the first attempt succeeds *)
    apply Z.eqb_eq in Ec0.
    exists [EvStartProcess exe given c0], [], [], c0.
    split; [unfold ApplyFile_run; split; [subst w1; appended|]; simpl; repeat split; auto|now left]. }
  apply Z.eqb_neq in Ec0.
  unfold ApplyFile_failed. run_unfold. simpl.
  destruct (is_regular_file env path w1) eqn:Efile; simpl.
  2:{ (* no file to fall back on *)
    eexists [_; _], [], [], c0.
    split; [unfold ApplyFile_run; split; [subst w1; appended|]; simpl; repeat split; auto|now left]. }
  unfold getline. simpl.
  destruct (cin w) as [|l rest] eqn:Ecin; simpl.
  { (* end of input: the empty answer declines *)
    eexists [_; _; _; _; _], [], [], c0.
    split; [unfold ApplyFile_run; split; [subst w1; appended|]; simpl; rewrite Ecin; repeat split; auto|right; split; [exact Ec0 | exact Efile]]. }
  destruct (is_yes l) eqn:Eyes; simpl.
  2:{ (* declined *)
    eexists [_; _; _; _; _], [l], [], c0.
    split; [unfold ApplyFile_run; split; [subst w1; appended|]; simpl; rewrite Eyes; repeat split; auto|right; split; [exact Ec0 | exact Efile]]. }
  (* accepted: one more attempt, with the attributes of the pool *)
  match goal with |- context [ApplyFile env pool path ?x] => set (w5 := x) end.
  simpl in Hn.
  assert (length (cin w5) < n)%nat as Hlen by (subst w5; simpl; lia).
  unfold ApplyFile, with_connection_info.
  destruct (IH _ Hlen pool
              (host (GetConnectionInfo pool)) (user (GetConnectionInfo pool))
              (password (GetConnectionInfo pool)) (port_or_socket (GetConnectionInfo pool))
              (database (GetConnectionInfo pool)) (ssl (GetConnectionInfo pool))
              path w5 eq_refl)
    as (new' & consumed' & failed' & final' & Hrun & _).
  change (GetCorrectedMySQLExecutable env w5) with exe in Hrun.
  change (ApplyFile_args (build env)
            (host (GetConnectionInfo pool)) (user (GetConnectionInfo pool))
            (password (GetConnectionInfo pool)) (port_or_socket (GetConnectionInfo pool))
            (database (GetConnectionInfo pool)) (ssl (GetConnectionInfo pool)) path)
    with own in Hrun.
  change (with_connection_info pool (ApplyFile_args (build env)) path) with own in Hrun.
  destruct Hrun as (Hext & Hcin & Hexit & Hargs & Hexe & Hlenf & Hfailed & Hout).
  assert (extends_by w w5
            [EvStartProcess exe given c0;
             EvLog LOG_WARN "sql.updates"
               ("Database update for '" +:+ pool_database pool +:+ "' was skipped or failed." +:+ LF
                +:+ "You declined both online and custom local SQL updates, but a default local file was found:" +:+ LF
                +:+ "    " +:+ generic_string path +:+ LF
                +:+ "Would you like to use this default SQL file for database setup?");
             EvCout "Use default TrinityCore SQL (TDB) files? [y/N]: ";
             EvGetline l;
             EvLog LOG_INFO "sql.updates"
               ("Applying default local SQL file '" +:+ generic_string path +:+ "'...")]) as Hpre
    by (subst w5 w1; appended).
  pose proof (extends_by_trans _ _ _ _ _ Hpre Hext) as Hall.
  assert (cin w5 = rest) as Hrest by reflexivity.
  destruct (ApplyFile8 env pool _ _ _ _ _ _ path w5) as [[[]|e] w6]; cbn [fst snd] in *.
  - destruct Hout as [Hfinal Hyes].
    eexists _, (l :: consumed'), (c0 :: failed'), final'.
    split; [|right; split; [exact Ec0 | exact Efile]].
    unfold ApplyFile_run. split; [exact Hall|].
    rewrite started_app. cbn [started flat_map app map exit_of args_of fst snd length repeat List.filter].
    fold (started new'). rewrite Hexit, Hargs, Eyes. cbn [length].
    repeat split; auto.
    + rewrite Ecin. rewrite Hrest in Hcin. now rewrite <- Hcin.
  - destruct Hout as [Hfinal ->].
    eexists _, (l :: consumed'), (c0 :: failed'), final'.
    split; [|right; split; [exact Ec0 | exact Efile]].
    unfold ApplyFile_run.
    split; [eapply extends_by_trans; [exact Hall | reflexivity]|].
    rewrite !started_app. cbn [started flat_map app map exit_of args_of fst snd length repeat List.filter].
    fold (started new'). rewrite app_nil_r, Hexit, Hargs, Eyes. cbn [length].
    repeat split; auto.
    + rewrite Ecin. rewrite Hrest in Hcin. cbn [cin emit]. now rewrite <- Hcin.
Qed.



(** X2. [ApplyFile] cannot retry more often than it is answered.  What it
    leaves of the input is a suffix of what it found; the number of
    clients it starts is one more than the number of lines it consumed
    that were "y" or "Y", hence at most one more than the number of
    unread lines. *)
Theorem ApplyFile_attempts_bounded pool host user password port_or_socket database ssl path w :
  let r := ApplyFile8 env pool host user password port_or_socket database ssl path w in
  exists new consumed,
    extends_by w (snd r) new
    /\ cin w = consumed ++ cin (snd r)
    /\ length (started new) = S (length (List.filter is_yes consumed))
    /\ (length (started new) <= S (length (cin w)))%nat.
Proof.
  intros r.
  destruct (ApplyFile8_runs _ pool host user password port_or_socket database ssl path w eq_refl)
    as (new & consumed & failed & final & (Hext & Hcin & Hexit & _ & _ & Hlen & _) & _).
  fold r in Hext, Hcin.
  exists new, consumed.
  assert (length (started new) = S (length (List.filter is_yes consumed))) as Hcount.
  { rewrite <- (length_map exit_of), Hexit, length_app, Hlen. simpl. lia. }
  repeat split; try assumption.
  rewrite Hcount, Hcin, length_app.
  pose proof (List.filter_length_le is_yes consumed). lia.
Qed.

(** X3. Every client [ApplyFile] starts is the executable resolved at the
    call, and every attempt sources the same file.  The first attempt uses
    the connection attributes passed in; each retry uses the attributes of
    the pool, whatever was passed in. *)
Theorem ApplyFile_retries_with_pool_attributes pool host user password port_or_socket database ssl path w :
  let r := ApplyFile8 env pool host user password port_or_socket database ssl path w in
  exists new retries,
    extends_by w (snd r) new
    /\ map args_of (started new)
       = ApplyFile_args (build env) host user password port_or_socket database ssl path
         :: repeat (with_connection_info pool (ApplyFile_args (build env)) path) retries
    /\ Forall (fun t => executable_of t = GetCorrectedMySQLExecutable env w) (started new)
    /\ Forall (adjacent "-e" (source_command path)) (map args_of (started new)).
Proof.
  intros r.
  destruct (ApplyFile8_runs _ pool host user password port_or_socket database ssl path w eq_refl)
    as (new & consumed & failed & final & (Hext & _ & _ & Hargs & Hexe & _) & _).
  fold r in Hext.
  exists new, (length failed). repeat split; try assumption.
  rewrite Hargs. constructor; [apply ApplyFile_args_command|].
  apply List.Forall_forall. intros args Hin. apply repeat_spec in Hin. subst args.
  unfold with_connection_info. apply ApplyFile_args_command.
Qed.

(** X4. [ApplyFile] reads input only when asked to fall back: if it read
    a line, then its first client failed and the file it was given is a
    regular file. *)
Theorem ApplyFile_reads_only_after_failure pool host user password port_or_socket database ssl path w new :
  extends_by w (snd (ApplyFile8 env pool host user password port_or_socket database ssl path w)) new ->
  answers new <> [] ->
  hd EXIT_SUCCESS (exit_codes new) <> EXIT_SUCCESS
  /\ is_regular_file env path w = true.
Proof.
  intros Hnew Hasked.
  destruct (ApplyFile8_runs _ pool host user password port_or_socket database ssl path w eq_refl)
    as (new' & consumed & failed & final & (Hext & _ & Hexit & _) & Hread).
  rewrite (extends_by_inj _ _ _ _ Hext Hnew) in *.
  destruct Hread as [Hnone | [Hcode Hfile]]; [contradiction|].
  split; [|exact Hfile].
  unfold exit_codes. rewrite Hexit. destruct failed; exact Hcode.
Qed.

End ApplyFileRuns.

Section ApplyFileEdges.

Variable env : Collaborators.

(** X5. When the client exits with [EXIT_SUCCESS], [ApplyFile] has done
    nothing else: no log line, no prompt, no input read. *)
Theorem ApplyFile_success_runs_client_once pool host user password port_or_socket database ssl path w :
  let exe := GetCorrectedMySQLExecutable env w in
  let args := ApplyFile_args (build env) host user password port_or_socket database ssl path in
  process_exit env exe args (trace w) = EXIT_SUCCESS ->
  ApplyFile8 env pool host user password port_or_socket database ssl path w
  = (Normal tt, emit (EvStartProcess exe args EXIT_SUCCESS) w).
Proof.
  intros exe args Hexit.
  rewrite ApplyFile8_unfold. unfold ApplyFile_body, StartProcess. run_unfold. simpl.
  fold exe. fold args. rewrite Hexit. reflexivity.
Qed.

(** X6. When the client fails and the file is not a regular file,
    [ApplyFile] throws at once: one error line is logged, the operator is
    not asked and no input is read. *)
Theorem ApplyFile_missing_file_throws_unasked pool host user password port_or_socket database ssl path w :
  let exe := GetCorrectedMySQLExecutable env w in
  let args := ApplyFile_args (build env) host user password port_or_socket database ssl path in
  let code := process_exit env exe args (trace w) in
  code <> EXIT_SUCCESS ->
  is_regular_file env path w = false ->
  exists message,
    ApplyFile8 env pool host user password port_or_socket database ssl path w
    = (Raised canceled_or_failed,
       emit (EvLog LOG_ERROR "sql.updates" message) (emit (EvStartProcess exe args code) w)).
Proof.
  intros exe args code Hcode Hfile.
  rewrite ApplyFile8_unfold. unfold ApplyFile_body, StartProcess. run_unfold. simpl.
  fold exe. fold args. fold code.
  apply Z.eqb_neq in Hcode. rewrite Hcode. simpl.
  unfold ApplyFile_failed. run_unfold. simpl.
  change (is_regular_file env path (emit (EvStartProcess exe args code) w))
    with (is_regular_file env path w).
  rewrite Hfile. simpl. eexists. reflexivity.
Qed.

(** X7. When the client fails on a file that exists and the answer is
    anything but "y" or "Y" (the empty line at end of input included),
    [ApplyFile] throws after that one attempt, having consumed at most the
    one line. *)
Theorem ApplyFile_declined_throws pool host user password port_or_socket database ssl path w :
  let exe := GetCorrectedMySQLExecutable env w in
  let args := ApplyFile_args (build env) host user password port_or_socket database ssl path in
  let r := ApplyFile8 env pool host user password port_or_socket database ssl path w in
  process_exit env exe args (trace w) <> EXIT_SUCCESS ->
  is_regular_file env path w = true ->
  is_yes (hd "" (cin w)) = false ->
  fst r = Raised canceled_or_failed
  /\ cin (snd r) = tl (cin w)
  /\ exists new, extends_by w (snd r) new
                 /\ length (started new) = 1%nat
                 /\ answers new = [hd "" (cin w)].
Proof.
  intros exe args r Hcode Hfile Hno. unfold r.
  rewrite ApplyFile8_unfold. unfold ApplyFile_body, StartProcess. run_unfold. simpl.
  fold exe. fold args.
  apply Z.eqb_neq in Hcode. rewrite Hcode. simpl.
  unfold ApplyFile_failed. run_unfold. simpl.
  change (is_regular_file env path (emit (EvStartProcess exe args (process_exit env exe args (trace w))) w))
    with (is_regular_file env path w).
  rewrite Hfile. simpl. unfold getline. simpl.
  destruct (cin w) as [|l rest] eqn:Ecin; simpl in *.
  - rewrite Ecin. repeat split. eexists. split; [appended|]. split; reflexivity.
  - rewrite Hno. simpl. repeat split. eexists. split; [appended|]. split; reflexivity.
Qed.

(** A failed attempt on a file that exists is followed by the prompt. *)
Lemma ApplyFile8_asks pool h u p pos db s path w :
  let exe := GetCorrectedMySQLExecutable env w in
  let args := ApplyFile_args (build env) h u p pos db s path in
  let code := process_exit env exe args (trace w) in
  code <> EXIT_SUCCESS ->
  is_regular_file env path w = true ->
  exists warn rest,
    extends_by w (snd (ApplyFile8 env pool h u p pos db s path w))
      (EvStartProcess exe args code :: EvLog LOG_WARN "sql.updates" warn
       :: fallback_prompt :: EvGetline (hd "" (cin w)) :: rest).
Proof.
  intros exe args code Hcode Hfile.
  rewrite ApplyFile8_unfold. unfold ApplyFile_body, StartProcess. run_unfold. simpl.
  fold exe. fold args. fold code.
  apply Z.eqb_neq in Hcode. rewrite Hcode. simpl.
  unfold ApplyFile_failed. run_unfold. simpl.
  change (is_regular_file env path (emit (EvStartProcess exe args code) w))
    with (is_regular_file env path w).
  rewrite Hfile. simpl. unfold getline. simpl.
  destruct (cin w) as [|l tail]; simpl.
  - eexists _, _. appended.
  - destruct (is_yes l); simpl.
    + match goal with |- context [ApplyFile env pool path ?x] =>
        destruct (ApplyFile_emits env pool path x) as (nnew & En & _);
        destruct (ApplyFile env pool path x) as [[[]|e] w6]
      end; simpl in *;
        eexists _, _;
        unfold extends_by in *; simpl; rewrite En; simpl;
        rewrite <- ?app_assoc; reflexivity.
    + eexists _, _. appended.
Qed.

End ApplyFileEdges.

(** ** [Create]: its other paths *)

Section CreatePaths.

Variable env : Collaborators.

(** X8. When the scratch file cannot be opened, [Create] returns [false]
    after a fatal log line; no client is started and the file system is
    as it was. *)
Theorem Create_without_scratch_file T pool w :
  fst (open_for_writing env temp w) = Normal false ->
  exists message,
    Create env T pool w
    = (Normal false,
       emit (EvLog LOG_FATAL "sql.updates" message) (emit (Create_announcement pool) w)).
Proof.
  intros Hopen. rewrite Create_unfold, Hopen. eexists. reflexivity.
Qed.


(** What the trace of [Create] holds when the scratch file was opened. *)
Lemma Create_trace T pool w :
  fst (open_for_writing env temp w) = Normal true ->
  exists final_log,
    extends_by (Create_written env pool w) (snd (Create_applied env pool w))
      (drop (2 + length (trace w)) (trace (snd (Create_applied env pool w))))
    /\ extends_by w (snd (Create env T pool w))
         ([Create_announcement pool; EvWrite temp (create_statement pool)]
          ++ drop (2 + length (trace w)) (trace (snd (Create_applied env pool w)))
          ++ [final_log])
    /\ is_log final_log.
Proof.
  intros Hopen. rewrite Create_unfold, Hopen. cbv zeta.
  destruct (Create_written_frame env pool w Hopen) as (Hwritten & _).
  destruct (ApplyFile8_emits env pool
              (host (GetConnectionInfo pool)) (user (GetConnectionInfo pool))
              (password (GetConnectionInfo pool)) (port_or_socket (GetConnectionInfo pool))
              "" (ssl (GetConnectionInfo pool)) temp (Create_written env pool w))
    as (anew & Ea & _).
  change (ApplyFile8 env pool
            (host (GetConnectionInfo pool)) (user (GetConnectionInfo pool))
            (password (GetConnectionInfo pool)) (port_or_socket (GetConnectionInfo pool))
            "" (ssl (GetConnectionInfo pool)) temp (Create_written env pool w))
    with (Create_applied env pool w) in Ea.
  assert (drop (2 + length (trace w)) (trace (snd (Create_applied env pool w))) = anew) as Hdrop.
  { unfold extends_by in Ea, Hwritten. rewrite Ea, Hwritten.
    replace (2 + length (trace w))%nat
      with (length (trace w ++ [Create_announcement pool; EvWrite temp (create_statement pool)]))
      by (rewrite length_app; simpl; lia).
    apply drop_app_length. }
  rewrite Hdrop.
  destruct (Create_applied env pool w) as [[[]|e] w3]; cbn [fst snd] in *;
    eexists; (split; [exact Ea|]);
    (split; [unfold extends_by in *; rewrite remove_trace; simpl; rewrite Ea, Hwritten;
             now rewrite <- !app_assoc
            | exact I]).
Qed.

(** X10. When [Create] applies the scratch file, the first client is
    started without a database name, so that the [SOURCE] command is its
    last argument; every retry after an accepted fallback names the
    database of the pool. *)
Theorem Create_first_attempt_names_no_database T pool w :
  fst (open_for_writing env temp w) = Normal true ->
  let vector := fun name =>
    ApplyFile_args (build env)
      (host (GetConnectionInfo pool)) (user (GetConnectionInfo pool))
      (password (GetConnectionInfo pool)) (port_or_socket (GetConnectionInfo pool))
      name (ssl (GetConnectionInfo pool)) temp in
  exists new retries,
    extends_by w (snd (Create env T pool w)) new
    /\ map args_of (started new) = vector "" :: repeat (vector (pool_database pool)) retries
    /\ last (vector "") = Some (source_command temp).
Proof.
  intros Hopen vector.
  destruct (Create_trace T pool w Hopen) as (final_log & Ea & Hc & Hlog).
  set (anew := drop _ _) in *.
  destruct (ApplyFile8_runs env _ pool
              (host (GetConnectionInfo pool)) (user (GetConnectionInfo pool))
              (password (GetConnectionInfo pool)) (port_or_socket (GetConnectionInfo pool))
              "" (ssl (GetConnectionInfo pool)) temp (Create_written env pool w) eq_refl)
    as (new' & consumed & failed & final & (Hext & _ & _ & Hargs & _) & _).
  change (ApplyFile8 env pool
            (host (GetConnectionInfo pool)) (user (GetConnectionInfo pool))
            (password (GetConnectionInfo pool)) (port_or_socket (GetConnectionInfo pool))
            "" (ssl (GetConnectionInfo pool)) temp (Create_written env pool w))
    with (Create_applied env pool w) in Hext.
  rewrite (extends_by_inj _ _ _ _ Hext Ea) in Hargs.
  eexists _, (length failed). split; [exact Hc|]. split.
  - rewrite !started_app.
    assert (started [final_log] = []) as -> by (destruct final_log; try reflexivity; destruct Hlog).
    simpl. rewrite app_nil_r. exact Hargs.
  - unfold vector, ApplyFile_args, emplace_back. simpl. apply last_snoc.
Qed.

(** X11. When the first client fails in [Create], [Create] does not
    return at once: the scratch file it has just written counts as the
    file to fall back on, so the operator is asked whether to use it and
    a line is read. *)
Theorem Create_asks_operator_after_failure T pool w :
  fst (open_for_writing env temp w) = Normal true ->
  let written := Create_written env pool w in
  let args :=
    ApplyFile_args (build env)
      (host (GetConnectionInfo pool)) (user (GetConnectionInfo pool))
      (password (GetConnectionInfo pool)) (port_or_socket (GetConnectionInfo pool))
      "" (ssl (GetConnectionInfo pool)) temp in
  process_exit env (GetCorrectedMySQLExecutable env w) args (trace written) <> EXIT_SUCCESS ->
  exists new before after,
    extends_by w (snd (Create env T pool w)) new
    /\ new = before ++ fallback_prompt :: EvGetline (hd "" (cin w)) :: after
    /\ started before = [(GetCorrectedMySQLExecutable env w, args,
                          process_exit env (GetCorrectedMySQLExecutable env w) args (trace written))].
Proof.
  intros Hopen written args Hcode.
  destruct (Create_trace T pool w Hopen) as (final_log & Ea & Hc & Hlog).
  set (anew := drop _ _) in *.
  destruct (Create_written_frame env pool w Hopen) as (_ & Hcache & Hcin & Hfile).
  fold written in Hcache, Hcin, Hfile.
  assert (GetCorrectedMySQLExecutable env written = GetCorrectedMySQLExecutable env w) as Hexe
    by (unfold GetCorrectedMySQLExecutable; now rewrite Hcache).
  rewrite <- Hexe in Hcode.
  destruct (ApplyFile8_asks env pool
              (host (GetConnectionInfo pool)) (user (GetConnectionInfo pool))
              (password (GetConnectionInfo pool)) (port_or_socket (GetConnectionInfo pool))
              "" (ssl (GetConnectionInfo pool)) temp written Hcode Hfile)
    as (warn & rest & Hasks).
  pose proof (extends_by_inj _ _ _ _ Ea Hasks) as Hanew.
  rewrite Hanew in Hc. rewrite Hexe, Hcin in Hc.
  eexists _, [Create_announcement pool; EvWrite temp (create_statement pool); _; _], _.
  split; [exact Hc|]. split; reflexivity.
Qed.

End CreatePaths.

(** ** The argument vector: its ends, its size and what it ignores *)

(** X12. The vector always begins with the host and the user, and it ends
    with the database name when one is given and with the [SOURCE]
    command otherwise. *)
Theorem ApplyFile_args_ends b host user password port_or_socket database ssl path :
  let args := ApplyFile_args b host user password port_or_socket database ssl path in
  take 2 args = ["-h" +:+ host; "-u" +:+ user]
  /\ last args = Some (if empty database then source_command path else database).
Proof.
  unfold ApplyFile_args, emplace_back, source_command, generic_string. split.
  - repeat match goal with
           | |- context [if ?c then _ else _] => destruct c
           end; reflexivity.
  - destruct (empty database); simpl; apply last_snoc.
Qed.

(** X13. The vector has between 7 and 13 elements. *)
Theorem ApplyFile_args_length b host user password port_or_socket database ssl path :
  (7 <= length (ApplyFile_args b host user password port_or_socket database ssl path) <= 13)%nat.
Proof.
  unfold ApplyFile_args, emplace_back.
  repeat match goal with
         | |- context [if ?c then _ else _] => destruct c
         end;
    repeat (rewrite length_app; simpl); lia.
Qed.

(** X14. On a Windows build with the host ".", the client is told to use
    a named pipe and the port-or-socket value is ignored. *)
Theorem ApplyFile_args_named_pipe b user password port_or_socket port_or_socket' database ssl path :
  _WIN32 b = true ->
  In "--protocol=PIPE" (ApplyFile_args b "." user password port_or_socket database ssl path)
  /\ ApplyFile_args b "." user password port_or_socket database ssl path
     = ApplyFile_args b "." user password port_or_socket' database ssl path.
Proof.
  intros Hwin. unfold ApplyFile_args, emplace_back. rewrite Hwin. simpl. split; [|reflexivity].
  repeat match goal with
         | |- context [if ?c then _ else _] => destruct c
         end;
    repeat rewrite in_app_iff; simpl; tauto.
Qed.

Lemma ApplyFile_args_named_pipe_witness :
  In "--protocol=PIPE" (ApplyFile_args windows_build "." "trinity" "secret" "3306" "world" "" "/src/base.sql").
Proof.
  apply (ApplyFile_args_named_pipe windows_build "trinity" "secret" "3306" "3307" "world" ""
           "/src/base.sql" eq_refl).
Defined.

(** X15. Transport security is requested for the value "ssl" and for no
    other: with it the vector holds [--ssl-mode=REQUIRED] on a MySQL 8
    client and [--ssl] otherwise; any two other values give the same
    vector. *)
Theorem ApplyFile_args_tls b host user password port_or_socket database ssl ssl' path :
  (let args := ApplyFile_args b host user password port_or_socket database "ssl" path in
   if negb (MARIADB_VERSION_ID_defined b) && (80000 <=? MYSQL_VERSION_ID b)
   then In "--ssl-mode=REQUIRED" args
   else In "--ssl" args)
  /\ (ssl <> "ssl" -> ssl' <> "ssl" ->
      ApplyFile_args b host user password port_or_socket database ssl path
      = ApplyFile_args b host user password port_or_socket database ssl' path).
Proof.
  split.
  - unfold ApplyFile_args, emplace_back. simpl String.eqb. cbv iota.
    destruct (negb (MARIADB_VERSION_ID_defined b) && (80000 <=? MYSQL_VERSION_ID b));
      repeat match goal with
             | |- context [if ?c then _ else _] => destruct c
             end;
      repeat rewrite in_app_iff; simpl; tauto.
  - intros H1 H2. apply String.eqb_neq in H1, H2.
    unfold ApplyFile_args. now rewrite H1, H2.
Qed.

Lemma ApplyFile_args_tls_witness :
  ApplyFile_args posix_build "127.0.0.1" "trinity" "secret" "3306" "world" "" "/src/base.sql"
  = ApplyFile_args posix_build "127.0.0.1" "trinity" "secret" "3306" "world" "tls" "/src/base.sql".
Proof.
  apply (ApplyFile_args_tls posix_build "127.0.0.1" "trinity" "secret" "3306" "world" "" "tls"
           "/src/base.sql"); discriminate.
Defined.

(** ** The executable locator: verdicts *)

Section LocatorVerdicts.

Variable env : Collaborators.


(** X17. Validation is idempotent: a second call right after the first
    returns the same verdict, and after [true] it changes nothing. *)
Theorem CheckExecutable_idempotent w :
  let r := CheckExecutable env w in
  fst (CheckExecutable env (snd r)) = fst r
  /\ (fst r = Normal true -> CheckExecutable env (snd r) = (Normal true, snd r)).
Proof.
  intros r. unfold r.
  rewrite (CheckExecutable_unfold env w).
  destruct (is_regular_file env (GetCorrectedMySQLExecutable env w) w) eqn:Ereg.
  - simpl. rewrite CheckExecutable_unfold, Ereg. auto.
  - cbv zeta. destruct (negb (empty _) && _) eqn:Efound; simpl.
    + apply andb_prop in Efound as [Hne Hreg]. apply negb_true_iff in Hne.
      assert (CheckExecutable env
                (set_corrected_path (absolute env (SearchExecutableInPath env "mysql" (files w))) w)
              = (Normal true,
                 set_corrected_path (absolute env (SearchExecutableInPath env "mysql" (files w))) w))
        as Hagain.
      { apply CheckExecutable_cache_kept.
        - simpl. now apply absolute_nonempty.
        - simpl.
          change (is_regular_file env (absolute env (SearchExecutableInPath env "mysql" (files w))) w = true).
          now rewrite is_regular_file_absolute. }
      rewrite Hagain. auto.
    + rewrite CheckExecutable_unfold.
      match goal with |- context [emit ?e w] => set (w' := emit e w) end.
      change (GetCorrectedMySQLExecutable env w') with (GetCorrectedMySQLExecutable env w).
      change (is_regular_file env (GetCorrectedMySQLExecutable env w) w')
        with (is_regular_file env (GetCorrectedMySQLExecutable env w) w).
      rewrite Ereg. cbv zeta.
      change (files w') with (files w).
      change (is_regular_file env (SearchExecutableInPath env "mysql" (files w)) w')
        with (is_regular_file env (SearchExecutableInPath env "mysql" (files w)) w).
      rewrite Efound. simpl. split; [reflexivity | discriminate].
Qed.

(** X18. [IsEnabled] is a bit test: the empty mask enables nothing, and a
    union of masks enables a type exactly when one of them does.  When the
    four flags are non-zero and pairwise disjoint, the flag of one type
    enables that type and no other. *)
Theorem IsEnabled_bit_test :
  (forall T, IsEnabled env T 0 = false)
  /\ (forall T a b, IsEnabled env T (Z.lor a b) = IsEnabled env T a || IsEnabled env T b)
  /\ ((forall T, DatabaseTypeFlag env T <> 0) ->
      (forall T1 T2, T1 <> T2 -> Z.land (DatabaseTypeFlag env T1) (DatabaseTypeFlag env T2) = 0) ->
      forall T1 T2, IsEnabled env T1 (DatabaseTypeFlag env T2) = true <-> T1 = T2).
Proof.
  split; [|split].
  - intros T. unfold IsEnabled. now rewrite Z.land_0_l.
  - intros T a b. unfold IsEnabled. rewrite Z.land_lor_distr_l.
    destruct (Z.land a (DatabaseTypeFlag env T) =? 0) eqn:Ea;
      destruct (Z.land b (DatabaseTypeFlag env T) =? 0) eqn:Eb; simpl.
    + apply Z.eqb_eq in Ea, Eb. rewrite Ea, Eb. reflexivity.
    + apply Z.eqb_neq in Eb.
      destruct (Z.lor _ _ =? 0) eqn:E; [|reflexivity].
      apply Z.eqb_eq in E. apply Z.lor_eq_0_iff in E. tauto.
    + apply Z.eqb_neq in Ea.
      destruct (Z.lor _ _ =? 0) eqn:E; [|reflexivity].
      apply Z.eqb_eq in E. apply Z.lor_eq_0_iff in E. tauto.
    + apply Z.eqb_neq in Ea.
      destruct (Z.lor _ _ =? 0) eqn:E; [|reflexivity].
      apply Z.eqb_eq in E. apply Z.lor_eq_0_iff in E. tauto.
  - intros Hnz Hdisjoint T1 T2. unfold IsEnabled. split.
    + intros H. destruct (decide (T1 = T2)) as [|Hne]; [assumption|].
      rewrite (Hdisjoint T2 T1) in H by congruence. discriminate H.
    + intros ->. rewrite Z.land_diag.
      destruct (DatabaseTypeFlag env T2 =? 0) eqn:E; [|reflexivity].
      apply Z.eqb_eq in E. now apply Hnz in E.
Qed.

End LocatorVerdicts.

Lemma IsEnabled_bit_test_witness :
  let env := scenario false 0 None None false in
  IsEnabled env WorldDatabaseConnection (DatabaseTypeFlag env WorldDatabaseConnection) = true
  /\ IsEnabled env WorldDatabaseConnection (DatabaseTypeFlag env HotfixDatabaseConnection) = false.
Proof.
  intros env.
  destruct (IsEnabled_bit_test env) as (_ & _ & H).
  assert (forall T, DatabaseTypeFlag env T <> 0) as Hnz by (intros []; discriminate).
  assert (forall T1 T2, T1 <> T2 ->
            Z.land (DatabaseTypeFlag env T1) (DatabaseTypeFlag env T2) = 0) as Hdis
    by (intros [] [] Hne; try reflexivity; congruence).
  split.
  - apply (H Hnz Hdis). reflexivity.
  - destruct (IsEnabled env WorldDatabaseConnection (DatabaseTypeFlag env HotfixDatabaseConnection))
      eqn:E; [|reflexivity].
    apply (H Hnz Hdis) in E. discriminate E.
Defined.

(** ** Policy and [Populate] agree *)

(** X19. [Populate] chooses a download address by the display name of the
    database; it has one exactly for the types whose base location is
    [LOCATION_DOWNLOAD].  The other types have a base file below the
    source directory, which is never the empty path. *)
Theorem download_address_matches_base_location (env : Collaborators) (T : DatabaseType) :
  (empty (downloadUrl_of (GetTableName T)) = false <-> GetBaseLocationType T = LOCATION_DOWNLOAD)
  /\ (GetBaseLocationType T = LOCATION_REPOSITORY ->
      empty (GetBaseFile env T) = false
      /\ exists name, GetBaseFile env T = GetSourceDirectory env +:+ "/sql/base/" +:+ name).
Proof.
  assert (forall a b : string, empty b = false -> empty (a +:+ b) = false) as Happ
    by (intros a b Hb; destruct a; [exact Hb | reflexivity]).
  destruct T; simpl; (split; [split; (reflexivity || discriminate)|]);
    intros H; try discriminate H;
    (split; [apply Happ; reflexivity | eexists; reflexivity]).
Qed.

(** ** [DownloadFile] *)

Section Downloads.

Variable env : Collaborators.

(** [DownloadFile] with libcurl, by the outcome of its three steps. *)
Lemma DownloadFile_curl_unfold url dest w :
  _WIN32 (build env) = false ->
  DownloadFile env url dest w =
  if curl_handle env (trace w) then
    let w1 := emit (EvCurlInit true) w in
    match fst (open_for_writing env dest w) with
    | Normal true =>
        let w2 := snd (open_for_writing env dest w1) in
        let w3 := emit (EvTransfer url (transfer env url (trace w1))) w2 in
        match transfer env url (trace w1) with
        | Some body =>
            (Normal true, emit (EvDownloadFile url dest true) (snd (write env dest body w3)))
        | None => (Normal false, emit (EvDownloadFile url dest false) w3)
        end
    | _ => (Normal false, emit (EvDownloadFile url dest false) w1)
    end
  else (Normal false, emit (EvDownloadFile url dest false) (emit (EvCurlInit false) w)).
Proof.
  intros Hwin. unfold DownloadFile, DownloadFile_body. rewrite Hwin.
  unfold bind at 1. unfold bind at 1. unfold gets at 1.
  unfold bind at 1. unfold modify at 1.
  destruct (curl_handle env (trace w)); cbn [negb]; [|reflexivity].
  unfold bind at 1. rewrite open_for_writing_emit.
  destruct (open_for_writing_cases env dest w) as [H | (location & _ & _ & _ & H)];
    rewrite H; cbn [fst snd negb]; [reflexivity|].
  unfold bind at 1. unfold gets at 1. unfold bind at 1. unfold modify at 1.
  change (trace (emit (EvCurlInit true)
                   (set_files (<[key location := RegularFile ""]> (files w)) w)))
    with (trace (emit (EvCurlInit true) w)).
  destruct (transfer env url (trace (emit (EvCurlInit true) w))) as [body|]; [|reflexivity].
  unfold bind at 1.
  destruct (write env dest body _) as [[[]|e] w4] eqn:Hwrite; [reflexivity|].
  unfold write, modify in Hwrite. discriminate Hwrite.
Qed.

(** The file just opened, once the body has been written to it. *)
Lemma write_after_open dest body w e location :
  locate env dest w = Some location ->
  node_at (files w) location <> Some Directory ->
  write env dest body (emit e (set_files (<[key location := RegularFile ""]> (files w)) w))
  = (Normal tt,
     emit (EvWrite dest body)
       (emit e (set_files (<[key location := RegularFile body]> (files w)) w))).
Proof.
  intros Hloc Hfile.
  pose proof (write_opened env dest body (emit e w) location Hloc Hfile) as H.
  exact H.
Qed.

(** What [DownloadFile] appends ends with its result, preceded by events
    of the download and the write to the destination; it reads
    nothing. *)
Lemma DownloadFile_events url dest w :
  exists ok pre,
    fst (DownloadFile env url dest w) = Normal ok
    /\ extends_by w (snd (DownloadFile env url dest w)) (pre ++ [EvDownloadFile url dest ok])
    /\ Forall (fun e => is_download_event e \/ is_write e) pre
    /\ cin (snd (DownloadFile env url dest w)) = cin w.
Proof.
  unfold DownloadFile, DownloadFile_body. run_unfold. cbn [fst snd].
  destruct (_WIN32 (build env)).
  - destruct (transfer env url (trace w)) as [body|].
    + match goal with |- context [open_for_writing env dest ?x] => set (w1 := x) end.
      destruct (open_for_writing_cases env dest w1) as [H | (location & Hloc & Hfile & _ & H)];
        rewrite H; cbn [fst snd negb].
      * exists false, [EvTransfer url (Some body)]. repeat split; [|repeat constructor].
        unfold extends_by. simpl. now rewrite <- app_assoc.
      * unfold write, modify.
        rewrite (locate_insert_file env dest w1 location "" Hfile), Hloc.
        cbn [files set_files]. rewrite (node_at_inserted _ _ _ Hfile).
        exists true, [EvTransfer url (Some body); EvWrite dest body].
        repeat split; [|repeat constructor; simpl; tauto].
        unfold extends_by. simpl. now rewrite <- !app_assoc.
    + exists false, [EvTransfer url None]. repeat split; [|repeat constructor].
      unfold extends_by. simpl. now rewrite <- app_assoc.
  - destruct (curl_handle env (trace w)); cbn [negb].
    + match goal with |- context [open_for_writing env dest ?x] => set (w1 := x) end.
      destruct (open_for_writing_cases env dest w1) as [H | (location & Hloc & Hfile & _ & H)];
        rewrite H; cbn [fst snd negb].
      * exists false, [EvCurlInit true]. repeat split; [|repeat constructor].
        unfold extends_by. simpl. now rewrite <- app_assoc.
      * cbn [trace set_files].
        destruct (transfer env url (trace w1)) as [body|].
        -- rewrite (write_after_open dest body w1 _ location Hloc Hfile). cbn [fst snd].
           exists true, [EvCurlInit true; EvTransfer url (Some body); EvWrite dest body].
           repeat split; [|repeat constructor; simpl; tauto].
           unfold extends_by. simpl. now rewrite <- !app_assoc.
        -- exists false, [EvCurlInit true; EvTransfer url None].
           repeat split; [|repeat constructor; simpl; tauto].
           unfold extends_by. simpl. now rewrite <- !app_assoc.
    + exists false, [EvCurlInit false]. repeat split; [|repeat constructor].
      unfold extends_by. simpl. now rewrite <- app_assoc.
Qed.

(** X20. When [DownloadFile] returns [true], a transfer delivered a body
    and the destination is a regular file holding exactly that body,
    whatever it held before; no other path of the file system changed. *)
Theorem DownloadFile_delivers url dest w :
  fst (DownloadFile env url dest w) = Normal true ->
  exists body new location,
    extends_by w (snd (DownloadFile env url dest w)) new
    /\ In (EvTransfer url (Some body)) new
    /\ locate env dest w = Some location
    /\ files (snd (DownloadFile env url dest w))
       = <[key location := RegularFile body]> (files w)
    /\ status env dest (snd (DownloadFile env url dest w)) = Some (RegularFile body).
Proof.
  unfold DownloadFile, DownloadFile_body. run_unfold. cbn [fst snd].
  destruct (_WIN32 (build env)).
  - destruct (transfer env url (trace w)) as [body|]; [|discriminate].
    match goal with |- context [open_for_writing env dest ?x] => set (w1 := x) end.
    destruct (open_for_writing_cases env dest w1) as [H | (location & Hloc & Hfile & Hp & H)];
      rewrite H; cbn [fst snd negb]; [discriminate|].
    unfold write, modify.
    rewrite (locate_insert_file env dest w1 location "" Hfile), Hloc.
    cbn [files set_files]. rewrite (node_at_inserted _ _ _ Hfile). cbn [fst snd].
    intros _. exists body, [EvTransfer url (Some body); EvWrite dest body; EvDownloadFile url dest true],
                location.
    split; [unfold extends_by; simpl; now rewrite <- !app_assoc|].
    split; [now left|]. split; [exact Hloc|].
    split; [cbn [files emit set_files]; now rewrite insert_insert_eq|].
    rewrite (status_same_files env dest
               (set_files (<[key location := RegularFile body]> (files w)) w))
      by (cbn [files emit set_files]; now rewrite insert_insert_eq).
    now apply status_written.
  - destruct (curl_handle env (trace w)); cbn [negb]; [|discriminate].
    match goal with |- context [open_for_writing env dest ?x] => set (w1 := x) end.
    destruct (open_for_writing_cases env dest w1) as [H | (location & Hloc & Hfile & Hp & H)];
      rewrite H; cbn [fst snd negb]; [discriminate|].
    cbn [trace set_files].
    destruct (transfer env url (trace w1)) as [body|]; [|discriminate].
    rewrite (write_after_open dest body w1 _ location Hloc Hfile). cbn [fst snd].
    intros _. exists body, [EvCurlInit true; EvTransfer url (Some body); EvWrite dest body;
                            EvDownloadFile url dest true], location.
    split; [unfold extends_by; simpl; now rewrite <- !app_assoc|].
    split; [right; now left|]. split; [exact Hloc|].
    split; [reflexivity|].
    rewrite (status_same_files env dest
               (set_files (<[key location := RegularFile body]> (files w)) w))
      by reflexivity.
    now apply status_written.
Qed.

(** X21. Without [_WIN32], [DownloadFile] returns [true] exactly when a
    handle was obtained, the destination was opened for writing and the
    transfer then succeeded. *)
Theorem DownloadFile_curl_succeeds_iff url dest w :
  _WIN32 (build env) = false ->
  (fst (DownloadFile env url dest w) = Normal true
   <-> curl_handle env (trace w) = true
       /\ fst (open_for_writing env dest w) = Normal true
       /\ transfer env url (trace w ++ [EvCurlInit true]) <> None).
Proof.
  intros Hwin. rewrite (DownloadFile_curl_unfold url dest w Hwin).
  destruct (curl_handle env (trace w));
    [|split; [discriminate | intros (H & _); discriminate H]].
  cbv zeta.
  destruct (fst (open_for_writing env dest w)) as [[|]|e];
    try (split; [discriminate | intros (_ & H & _); discriminate H]).
  change (trace (emit (EvCurlInit true) w)) with (trace w ++ [EvCurlInit true]).
  destruct (transfer env url (trace w ++ [EvCurlInit true])) as [body|].
  - split; [intros _; repeat split; discriminate | reflexivity].
  - split; [discriminate | intros (_ & _ & H); now destruct H].
Qed.

(** X22. Without [_WIN32], no transfer is attempted unless the handle was
    obtained and the destination opened: otherwise [DownloadFile] returns
    [false] and the file system is as it was. *)
Theorem DownloadFile_curl_gives_up_before_transfer url dest w :
  _WIN32 (build env) = false ->
  curl_handle env (trace w) = false \/ fst (open_for_writing env dest w) = Normal false ->
  exists new,
    fst (DownloadFile env url dest w) = Normal false
    /\ extends_by w (snd (DownloadFile env url dest w)) new
    /\ (forall u b, ~ In (EvTransfer u b) new)
    /\ files (snd (DownloadFile env url dest w)) = files w.
Proof.
  intros Hwin Hwhy. rewrite (DownloadFile_curl_unfold url dest w Hwin).
  destruct (curl_handle env (trace w)).
  - destruct Hwhy as [H|Hwhy]; [discriminate H|]. rewrite Hwhy. cbv zeta.
    eexists. split; [reflexivity|]. split; [appended|]. split; [|reflexivity].
    intros u b [H|[H|[]]]; discriminate H.
  - eexists. split; [reflexivity|]. split; [appended|]. split; [|reflexivity].
    intros u b [H|[H|[]]]; discriminate H.
Qed.

(** X23. Without [_WIN32] the destination is opened before the transfer,
    so a transfer that fails after the destination was opened still
    leaves a regular file there, also where there was none. *)
Theorem DownloadFile_curl_failed_transfer_leaves_file url dest w :
  _WIN32 (build env) = false ->
  curl_handle env (trace w) = true ->
  fst (open_for_writing env dest w) = Normal true ->
  transfer env url (trace w ++ [EvCurlInit true]) = None ->
  fst (DownloadFile env url dest w) = Normal false
  /\ is_regular_file env dest (snd (DownloadFile env url dest w)) = true.
Proof.
  intros Hwin Hcurl Hopen Hnone.
  rewrite (DownloadFile_curl_unfold url dest w Hwin), Hcurl, Hopen. cbv zeta.
  change (trace (emit (EvCurlInit true) w)) with (trace w ++ [EvCurlInit true]).
  rewrite Hnone. split; [reflexivity|]. cbn [snd].
  destruct (open_for_writing_cases env dest w) as [H | (location & Hloc & Hfile & Hp & H)];
    [rewrite H in Hopen; discriminate Hopen|].
  rewrite open_for_writing_emit, H. cbn [snd].
  unfold is_regular_file.
  rewrite (status_same_files env dest
             (set_files (<[key location := RegularFile ""]> (files w)) w))
    by reflexivity.
  now rewrite (status_written env dest w location "" Hp Hloc Hfile).
Qed.

End Downloads.

(** ** [Populate]: its outcomes *)

Section PopulateOutcomes.

Variable env : Collaborators.

Lemma Populate_unfold T pool w :
  Populate env T pool w =
  match CheckExecutable env w with
  | (Normal true, w1) =>
      if negb (String.eqb (GetTableName T) "World")
         && negb (String.eqb (GetTableName T) "Hotfixes")
      then
        let result := pool_Query env (GetConnectionInfo pool) "SHOW TABLES" (trace w1) in
        let w2 := emit (EvQuery (pool_database pool) "SHOW TABLES" result) w1 in
        if match result with
           | Some rows => (0 <? rows)%N
           | None => false
           end
        then (Normal true, w2)
        else Populate_base env T pool w2
      else Populate_base env T pool w1
  | (Normal false, w1) => (Normal false, w1)
  | (Raised e, w1) => (Raised e, w1)
  end.
Proof.
  unfold Populate. unfold bind at 1.
  destruct (CheckExecutable env w) as [[[|]|e] w1]; try reflexivity.
  cbn [negb]. cbv zeta.
  destruct (negb (String.eqb (GetTableName T) "World")
            && negb (String.eqb (GetTableName T) "Hotfixes")).
  - unfold Retrieve. run_unfold. simpl.
    destruct (pool_Query env (GetConnectionInfo pool) "SHOW TABLES" (trace w1)) as [rows|];
      [destruct (0 <? rows)%N|]; reflexivity.
  - reflexivity.
Qed.

Lemma Populate_base_unfold T pool w :
  Populate_base env T pool w =
  let w0 := emit (Populate_announcement T) w in
  if empty (GetBaseFile env T) then (Normal true, emit no_base_file_log w0)
  else
    match (if negb (empty (downloadUrl_of (GetTableName T)))
           then resolve_base env (GetTableName T) (downloadUrl_of (GetTableName T))
                  (GetBaseFile env T) w0
           else (Normal (Some (GetBaseFile env T)), w0)) with
    | (Normal None, w1) => (Normal false, w1)
    | (Normal (Some base), w1) => apply_base env T pool base w1
    | (Raised e, w1) => (Raised e, w1)
    end.
Proof.
  unfold Populate_base. cbv zeta.
  unfold bind at 1. unfold TC_LOG at 1. unfold modify at 1.
  fold (Populate_announcement T).
  destruct (empty (GetBaseFile env T)); [reflexivity|].
  unfold bind at 1.
  destruct (negb (empty (downloadUrl_of (GetTableName T)))).
  - destruct (resolve_base env _ _ _ _) as [[[b|]|e] w1]; reflexivity.
  - reflexivity.
Qed.

(** [apply_base] returns [true], and what it appends are two log lines
    around a run of [ApplyFile] on the base file. *)
Lemma apply_base_run T pool base w :
  exists anew,
    fst (apply_base env T pool base w) = Normal true
    /\ extends_by w (snd (apply_base env T pool base w))
         (EvLog LOG_INFO "sql.updates" (">> Applying '" +:+ base +:+ "'...")
          :: anew
          ++ [EvLog LOG_INFO "sql.updates" (">> " +:+ GetTableName T +:+ " Database update completed!")])
    /\ Forall terminal_or_process anew
    /\ exists retries,
         map args_of (started anew)
         = repeat (with_connection_info pool (ApplyFile_args (build env)) base) (S retries).
Proof.
  unfold apply_base, generic_string. run_unfold. simpl.
  match goal with |- context [ApplyFile env pool base ?x] => set (w1 := x) end.
  destruct (ApplyFile_emits env pool base w1) as (anew & Ea & Fa).
  destruct (ApplyFile8_runs env _ pool
              (host (GetConnectionInfo pool)) (user (GetConnectionInfo pool))
              (password (GetConnectionInfo pool)) (port_or_socket (GetConnectionInfo pool))
              (database (GetConnectionInfo pool)) (ssl (GetConnectionInfo pool))
              base w1 eq_refl)
    as (new' & consumed & failed & final & (Hext & _ & _ & Hargs & _) & _).
  change (ApplyFile8 env pool _ _ _ _ _ _ base w1) with (ApplyFile env pool base w1) in Hext.
  rewrite (extends_by_inj _ _ _ _ Hext Ea) in Hargs.
  exists anew.
  destruct (ApplyFile env pool base w1) as [[[]|e] w2]; cbn [fst snd] in *;
    (split; [reflexivity|]);
    (split; [unfold extends_by in *; simpl; rewrite Ea; subst w1; simpl;
             now rewrite <- !app_assoc|]);
    (split; [exact Fa|]);
    exists (length failed); exact Hargs.
Qed.


Lemma terminal_no_download l :
  Forall terminal_or_process l -> Forall (fun e => ~ is_download_event e) l.
Proof. intros H. eapply Forall_impl; [exact H|]. intros [] Hx; simpl in *; tauto. Qed.

Lemma log_terminal l : Forall is_log l -> Forall terminal_or_process l.
Proof. intros H. eapply Forall_impl; [exact H|]. intros [] Hx; simpl in *; tauto. Qed.



Lemma repository_has_no_address T :
  GetBaseLocationType T = LOCATION_REPOSITORY ->
  negb (empty (downloadUrl_of (GetTableName T))) = false /\ empty (GetBaseFile env T) = false.
Proof.
  assert (forall a b : string, empty b = false -> empty (a +:+ b) = false) as Happ
    by (intros a b Hb; destruct a; [exact Hb | reflexivity]).
  destruct T; simpl; intros H; try discriminate H; (split; [reflexivity|]);
    apply Happ; reflexivity.
Qed.

(** X25. For the databases whose base file is in the repository (auth and
    character), [Populate] downloads nothing, and it returns [false] only
    when the client executable does not validate. *)
Theorem Populate_in_repository_downloads_nothing T pool w new :
  GetBaseLocationType T = LOCATION_REPOSITORY ->
  extends_by w (snd (Populate env T pool w)) new ->
  Forall (fun e => ~ is_download_event e) new
  /\ (fst (Populate env T pool w) = Normal false <-> fst (CheckExecutable env w) = Normal false).
Proof.
  intros Hrepo Hnew.
  destruct (repository_has_no_address T Hrepo) as [Hurl Hfile].
  assert (exists new',
             extends_by w (snd (Populate env T pool w)) new'
             /\ Forall (fun e => ~ is_download_event e) new'
             /\ (fst (Populate env T pool w) = Normal false
                 <-> fst (CheckExecutable env w) = Normal false)) as (new' & E & H).
  { rewrite Populate_unfold.
    destruct (CheckExecutable_total env w) as (ok0 & new1 & Hok & Hext & Hlog & _).
    destruct (CheckExecutable env w) as [r w1]. cbn [fst snd] in *. subst r.
    assert (Forall (fun e => ~ is_download_event e) new1) as F1
      by (apply terminal_no_download, log_terminal, Hlog).
    assert (forall w2 pre,
              extends_by w w2 pre -> Forall (fun e => ~ is_download_event e) pre ->
              exists new',
                extends_by w (snd (Populate_base env T pool w2)) new'
                /\ Forall (fun e => ~ is_download_event e) new'
                /\ (fst (Populate_base env T pool w2) = Normal false
                    <-> Normal true = Normal false)) as Hbase.
    { intros w2 pre E2 F2.
      rewrite Populate_base_unfold. cbv zeta. rewrite Hfile, Hurl.
      destruct (apply_base_run T pool (GetBaseFile env T) (emit (Populate_announcement T) w2))
        as (anew & Hok' & Ea & Fa & _).
      eexists. split; [|split].
      - eapply extends_by_trans; [exact E2|].
        eapply extends_by_trans; [|exact Ea]. reflexivity.
      - apply Forall_app. split; [exact F2|].
        constructor; [simpl; tauto|]. constructor; [simpl; tauto|].
        apply Forall_app. split; [now apply terminal_no_download|].
        repeat constructor. simpl. tauto.
      - rewrite Hok'. split; discriminate. }
    destruct ok0.
    - destruct (negb (String.eqb (GetTableName T) "World")
                && negb (String.eqb (GetTableName T) "Hotfixes")).
      + cbv zeta.
        set (result := pool_Query env _ _ _).
        set (w2 := emit _ w1).
        assert (extends_by w w2 (new1 ++ [EvQuery (pool_database pool) "SHOW TABLES" result])) as E2
          by (eapply extends_by_trans; [exact Hext | reflexivity]).
        assert (Forall (fun e => ~ is_download_event e)
                  (new1 ++ [EvQuery (pool_database pool) "SHOW TABLES" result])) as F2
          by (apply Forall_app; split; [exact F1 | repeat constructor; simpl; tauto]).
        destruct (match result with Some rows => (0 <? rows)%N | None => false end).
        * eexists. split; [exact E2|]. split; [exact F2|]. split; discriminate.
        * apply (Hbase w2 _ E2 F2).
      + apply (Hbase w1 _ Hext F1).
    - exists new1. split; [exact Hext|]. split; [exact F1|]. split; reflexivity. }
  rewrite (extends_by_inj _ _ _ _ Hnew E). exact H.
Qed.

(** X26. When the base file of a downloadable database resolves to the
    empty path, [Populate] returns [true] after saying so: nothing is
    asked, downloaded or applied. *)
Theorem Populate_without_base_file T pool w w1 :
  CheckExecutable env w = (Normal true, w1) ->
  GetBaseLocationType T = LOCATION_DOWNLOAD ->
  empty (GetBaseFile env T) = true ->
  Populate env T pool w
  = (Normal true, emit no_base_file_log (emit (Populate_announcement T) w1)).
Proof.
  intros Hcheck HT Hbase.
  rewrite Populate_unfold, Hcheck.
  assert (negb (String.eqb (GetTableName T) "World")
          && negb (String.eqb (GetTableName T) "Hotfixes") = false) as ->
    by (destruct T; try reflexivity; discriminate HT).
  rewrite Populate_base_unfold. cbv zeta. now rewrite Hbase.
Qed.

Lemma Populate_downloadable T pool w w1 :
  CheckExecutable env w = (Normal true, w1) ->
  GetBaseLocationType T = LOCATION_DOWNLOAD ->
  empty (GetBaseFile env T) = false ->
  Populate env T pool w =
  match resolve_base env (GetTableName T) (downloadUrl_of (GetTableName T)) (GetBaseFile env T)
          (emit (Populate_announcement T) w1) with
  | (Normal None, w2) => (Normal false, w2)
  | (Normal (Some base), w2) => apply_base env T pool base w2
  | (Raised e, w2) => (Raised e, w2)
  end.
Proof.
  intros Hcheck HT Hbase.
  rewrite Populate_unfold, Hcheck.
  assert (negb (String.eqb (GetTableName T) "World")
          && negb (String.eqb (GetTableName T) "Hotfixes") = false) as ->
    by (destruct T; try reflexivity; discriminate HT).
  rewrite Populate_base_unfold. cbv zeta. rewrite Hbase.
  assert (negb (empty (downloadUrl_of (GetTableName T))) = true) as ->
    by (destruct T; try reflexivity; discriminate HT).
  reflexivity.
Qed.

Lemma CheckExecutable_frame w w1 ok :
  CheckExecutable env w = (Normal ok, w1) ->
  cin w1 = cin w /\ exists new1, extends_by w w1 new1 /\ Forall is_log new1.
Proof.
  intros H. destruct (CheckExecutable_total env w) as (ok0 & new1 & _ & Hext & Hlog & _ & Hcin).
  rewrite H in *. simpl in *. eauto.
Qed.



End PopulateOutcomes.

(** ** [Populate] with [AllowAutoDBUpdate] *)

Section PopulateAutomatic.

Variable env : Collaborators.

(** With [AllowAutoDBUpdate] set, [resolve_base] goes to the download
    without a prompt. *)
Lemma resolve_base_automatic dbName url base w :
  GetBoolDefault env "AllowAutoDBUpdate" false = true ->
  exists ok pre w',
    fst (DownloadFile env url base
           (emit (EvLog LOG_INFO "sql.updates" ("Downloading latest base SQL from " +:+ url +:+ " ..."))
              (emit (EvLog LOG_INFO "sql.updates"
                       "AllowAutoDBUpdate=1, automatically proceeding with database update.") w)))
    = Normal ok
    /\ resolve_base env dbName url base w = (Normal (if ok then Some base else None), w')
    /\ extends_by w w'
         ([EvLog LOG_INFO "sql.updates"
             "AllowAutoDBUpdate=1, automatically proceeding with database update.";
           EvLog LOG_INFO "sql.updates" ("Downloading latest base SQL from " +:+ url +:+ " ...")]
          ++ pre ++ [EvDownloadFile url base ok;
                     if ok then EvLog LOG_INFO "sql.updates" ("Successfully downloaded " +:+ base)
                     else download_failure_log url])
    /\ Forall (fun e => is_download_event e \/ is_write e) pre
    /\ cin w' = cin w.
Proof.
  intros Hauto.
  unfold resolve_base, generic_string. rewrite Hauto.
  unfold bind at 1. unfold bind at 1. unfold TC_LOG at 1. unfold modify at 1. unfold ret at 1.
  change (is_yes "y") with true. cbv iota.
  unfold bind at 1. unfold bind at 1. unfold TC_LOG at 1. unfold modify at 1.
  unfold bind at 1.
  match goal with |- context [DownloadFile env url base ?x] => set (w0 := x) end.
  destruct (DownloadFile_events env url base w0) as (ok & pre & Hok & Hext & Hpre & Hcin).
  destruct (DownloadFile env url base w0) as [r wd]. simpl in Hok, Hext, Hcin. subst r.
  exists ok, pre. destruct ok; simpl; run_unfold; simpl.
  - eexists. split; [reflexivity|]. split; [reflexivity|]. split; [|split; [exact Hpre|exact Hcin]].
    unfold extends_by in *. simpl. rewrite Hext. subst w0. simpl.
    rewrite <- ?app_assoc. reflexivity.
  - eexists. split; [reflexivity|]. split; [reflexivity|]. split; [|split; [exact Hpre|exact Hcin]].
    unfold extends_by in *. simpl. rewrite Hext. subst w0. simpl.
    rewrite <- ?app_assoc. reflexivity.
Qed.

Lemma answers_app a b : answers (a ++ b) = answers a ++ answers b.
Proof. unfold answers. apply flat_map_app. Qed.

Lemma prompts_app a b : prompts (a ++ b) = prompts a ++ prompts b.
Proof. unfold prompts. apply flat_map_app. Qed.

Lemma download_events_quiet l :
  Forall (fun e => is_download_event e \/ is_write e) l ->
  answers l = [] /\ started l = [] /\ prompts l = [].
Proof.
  induction 1 as [|x l Hx _ (IH1 & IH2 & IH3)]; [repeat split|].
  destruct x; try (destruct Hx as [[]|[]]); simpl; repeat split; assumption.
Qed.

Lemma log_events_quiet l :
  Forall is_log l -> answers l = [] /\ started l = [] /\ prompts l = [].
Proof.
  induction 1 as [|x l Hx _ (IH1 & IH2 & IH3)]; [repeat split|].
  destruct x; try destruct Hx; simpl; repeat split; assumption.
Qed.

(** X28. With [AllowAutoDBUpdate] set, [Populate] of a downloadable
    database whose client is found and whose base file is not the empty
    path attempts the download of the database's address to its base
    file without having prompted, read input or started a process; when
    the download succeeds it starts the client on the base file and
    returns [true], and when it fails it returns [false] having started
    nothing.  (With the empty path for a base file [Populate] has
    returned before, as stated above.) *)
Theorem Populate_automatic T pool w w1 :
  CheckExecutable env w = (Normal true, w1) ->
  GetBaseLocationType T = LOCATION_DOWNLOAD ->
  empty (GetBaseFile env T) = false ->
  GetBoolDefault env "AllowAutoDBUpdate" false = true ->
  exists ok before after,
    extends_by w (snd (Populate env T pool w))
      (before ++ EvDownloadFile (downloadUrl_of (GetTableName T)) (GetBaseFile env T) ok :: after)
    /\ answers before = [] /\ started before = [] /\ prompts before = []
    /\ fst (Populate env T pool w) = Normal ok
    /\ if ok
       then exists retries,
              map args_of (started after)
              = repeat (with_connection_info pool (ApplyFile_args (build env)) (GetBaseFile env T))
                  (S retries)
       else started after = [] /\ answers after = [].
Proof.
  intros Hcheck HT Hbase Hauto.
  rewrite (Populate_downloadable env T pool w w1 Hcheck HT Hbase).
  destruct (CheckExecutable_frame env w w1 true Hcheck) as (Hcin & new1 & E1 & L1).
  set (w0 := emit (Populate_announcement T) w1).
  destruct (resolve_base_automatic (GetTableName T) (downloadUrl_of (GetTableName T))
              (GetBaseFile env T) w0 Hauto) as (ok & pre & w2 & _ & Hres & Er & Fr & _).
  rewrite Hres.
  destruct (log_events_quiet new1 L1) as (A1 & S1 & C1).
  destruct (download_events_quiet pre Fr) as (A2 & S2 & C2).
  exists ok.
  exists (new1 ++ [Populate_announcement T;
                   EvLog LOG_INFO "sql.updates"
                     "AllowAutoDBUpdate=1, automatically proceeding with database update.";
                   EvLog LOG_INFO "sql.updates"
                     ("Downloading latest base SQL from " +:+ downloadUrl_of (GetTableName T) +:+ " ...")]
          ++ pre).
  destruct ok.
  - destruct (apply_base_run env T pool (GetBaseFile env T) w2) as (anew & Hok & Ea & Fa & retries & Hargs).
    eexists. split; [|split; [|split; [|split; [|split; [exact Hok|]]]]].
    + unfold extends_by in *. rewrite Ea, Er. subst w0. simpl. rewrite E1.
      rewrite <- ?app_assoc. simpl. rewrite <- ?app_assoc. simpl. reflexivity.
    + rewrite !answers_app, A1, A2. reflexivity.
    + rewrite !started_app, S1, S2. reflexivity.
    + rewrite !prompts_app, C1, C2. reflexivity.
    + exists retries. simpl. rewrite started_app. simpl. rewrite app_nil_r. exact Hargs.
  - eexists. split; [|split; [|split; [|split; [|split; [reflexivity|]]]]].
    + unfold extends_by in *. simpl. rewrite Er. subst w0. simpl. rewrite E1.
      rewrite <- ?app_assoc. simpl. rewrite <- ?app_assoc. simpl. reflexivity.
    + rewrite !answers_app, A1, A2. reflexivity.
    + rewrite !started_app, S1, S2. reflexivity.
    + rewrite !prompts_app, C1, C2. reflexivity.
    + split; reflexivity.
Qed.

End PopulateAutomatic.

(** ** [Update]: the report *)

Lemma string_append_assoc (a b c : string) : (a +:+ b) +:+ c = a +:+ b +:+ c.
Proof.
  induction a as [|x a IH]; [reflexivity|].
  change (String x ((a +:+ b) +:+ c) = String x (a +:+ b +:+ c)). now rewrite IH.
Qed.

Section UpdateReport.

Variable env : Collaborators.

(** X29. When the fetcher returns, [Update] adds one info line to the
    state the fetcher left and returns [true].  The line ends with the
    counts of new and archived updates; it says that the database is up
    to date exactly when nothing was applied, and otherwise gives the
    number applied, with the word "query" for one and "queries" for
    more. *)
Theorem Update_reports_result T pool w w1 result w3 :
  CheckExecutable env w = (Normal true, w1) ->
  is_directory env (GetSourceDirectory env) w1 = true ->
  run_fetcher env pool
    (emit (EvLog LOG_INFO "sql.updates" ("Updating " +:+ GetTableName T +:+ " database...")) w1)
  = (Normal result, w3) ->
  let info := "Containing " +:+ pretty (recent result) +:+ " new and "
              +:+ pretty (archived result) +:+ " archived updates." in
  exists head,
    Update env T pool w
    = (Normal true, emit (EvLog LOG_INFO "sql.updates" (head +:+ info)) w3)
    /\ (updated result = 0%N -> head = ">> " +:+ GetTableName T +:+ " database is up-to-date! ")
    /\ (updated result = 1%N -> head = ">> Applied 1 query. ")
    /\ ((1 < updated result)%N ->
        head = ">> Applied " +:+ pretty (updated result) +:+ " queries. ").
Proof.
  intros Hcheck Hdir Hfetch info.
  unfold Update. rewrite (bind_Normal _ _ _ _ _ Hcheck).
  change (negb true) with false. cbv iota.
  unfold bind at 1. unfold TC_LOG at 1. unfold modify at 1. cbv beta iota.
  unfold bind at 1. unfold gets at 1. cbv beta iota.
  change (is_directory env (GetSourceDirectory env)
            (emit (EvLog LOG_INFO "sql.updates" ("Updating " +:+ GetTableName T +:+ " database...")) w1))
    with (is_directory env (GetSourceDirectory env) w1).
  rewrite Hdir. change (negb true) with false. cbv iota.
  unfold bind at 1. unfold try_catch at 1. unfold bind at 1.
  rewrite Hfetch. unfold ret at 1. cbv iota beta.
  destruct (updated result =? 0)%N eqn:E0.
  - exists (">> " +:+ GetTableName T +:+ " database is up-to-date! ").
    apply N.eqb_eq in E0. split; [|split; [|split]].
    + run_unfold. simpl. rewrite ?string_append_assoc. reflexivity.
    + reflexivity.
    + intros H. rewrite H in E0. discriminate E0.
    + intros H. lia.
  - apply N.eqb_neq in E0.
    destruct (updated result =? 1)%N eqn:E1.
    + apply N.eqb_eq in E1. exists ">> Applied 1 query. ". split; [|split; [|split]].
      * run_unfold. simpl. rewrite E1. reflexivity.
      * intros H. contradiction.
      * reflexivity.
      * intros H. lia.
    + apply N.eqb_neq in E1.
      exists (">> Applied " +:+ pretty (updated result) +:+ " queries. "). split; [|split; [|split]].
      * run_unfold. simpl. rewrite ?string_append_assoc. reflexivity.
      * intros H. contradiction.
      * intros H. contradiction.
      * reflexivity.
Qed.

End UpdateReport.

(** ** The further properties on the scenarios *)


Lemma CheckExecutable_idempotent_witness :
  let env := scenario_on_path in
  let w := boot [] only_on_path in
  let r := CheckExecutable env w in
  fst r = Normal true
  /\ CheckExecutable env (snd r) = (Normal true, snd r).
Proof.
  intros env w r.
  assert (fst r = Normal true) as H1 by (vm_compute; reflexivity).
  destruct (CheckExecutable_idempotent env w) as (_ & Hagain).
  split; [exact H1 | exact (Hagain H1)].
Defined.

(** The auth database. *)
Lemma download_address_matches_base_location_witness :
  let env := scenario false 0 None None false in
  GetBaseLocationType LoginDatabaseConnection = LOCATION_REPOSITORY
  /\ empty (GetBaseFile env LoginDatabaseConnection) = false.
Proof.
  intros env.
  destruct (download_address_matches_base_location env LoginDatabaseConnection) as (_ & H).
  split; [reflexivity|]. exact (proj1 (H eq_refl)).
Defined.


(** The client fails on a base file that is on disk and the operator
    answers "n". *)
Lemma ApplyFile_reads_only_after_failure_witness :
  let env := scenario false 1 None None false in
  let pool := scenario_pool "world" in
  let w := boot ["n"] with_base_file in
  let r := ApplyFile8 env pool "127.0.0.1" "trinity" "secret" "3306" "world" "" "/src/base.sql" w in
  answers (trace (snd r)) = ["n"]
  /\ hd EXIT_SUCCESS (exit_codes (trace (snd r))) <> EXIT_SUCCESS
  /\ is_regular_file env "/src/base.sql" w = true.
Proof.
  intros env pool w r.
  assert (extends_by w (snd r) (trace (snd r))) as H1 by reflexivity.
  assert (answers (trace (snd r)) = ["n"]) as H2 by (vm_compute; reflexivity).
  assert (answers (trace (snd r)) <> []) as H3 by (rewrite H2; discriminate).
  split; [exact H2|].
  exact (ApplyFile_reads_only_after_failure env pool "127.0.0.1" "trinity" "secret" "3306"
           "world" "" "/src/base.sql" w (trace (snd r)) H1 H3).
Defined.

(** The client succeeds. *)
Lemma ApplyFile_success_runs_client_once_witness :
  let env := scenario false 0 None None false in
  let pool := scenario_pool "world" in
  let w := boot ["y"] with_base_file in
  let r := ApplyFile8 env pool "127.0.0.1" "trinity" "secret" "3306" "world" "" "/src/base.sql" w in
  fst r = Normal tt /\ cin (snd r) = ["y"] /\ length (trace (snd r)) = 1%nat.
Proof.
  intros env pool w r. unfold r.
  rewrite (ApplyFile_success_runs_client_once env pool "127.0.0.1" "trinity" "secret" "3306"
             "world" "" "/src/base.sql" w eq_refl).
  repeat split.
Defined.

(** The client fails and there is no base file. *)
Lemma ApplyFile_missing_file_throws_unasked_witness :
  let env := scenario false 1 None None false in
  let pool := scenario_pool "world" in
  let w := boot ["y"] installed in
  let r := ApplyFile8 env pool "127.0.0.1" "trinity" "secret" "3306" "world" "" "/src/base.sql" w in
  is_regular_file env "/src/base.sql" w = false
  /\ fst r = Raised canceled_or_failed
  /\ cin (snd r) = ["y"].
Proof.
  intros env pool w r. unfold r.
  assert (process_exit env (GetCorrectedMySQLExecutable env w)
            (ApplyFile_args (build env) "127.0.0.1" "trinity" "secret" "3306" "world" "" "/src/base.sql")
            (trace w) <> EXIT_SUCCESS) as H1 by (vm_compute; discriminate).
  assert (is_regular_file env "/src/base.sql" w = false) as H2 by (vm_compute; reflexivity).
  destruct (ApplyFile_missing_file_throws_unasked env pool "127.0.0.1" "trinity" "secret" "3306"
              "world" "" "/src/base.sql" w H1 H2) as (message & ->).
  repeat split.
Defined.

(** The client fails, the base file is on disk and the operator answers
    "no". *)
Lemma ApplyFile_declined_throws_witness :
  let env := scenario false 1 None None false in
  let pool := scenario_pool "world" in
  let w := boot ["no"; "y"] with_base_file in
  let r := ApplyFile8 env pool "127.0.0.1" "trinity" "secret" "3306" "world" "" "/src/base.sql" w in
  is_yes "no" = false
  /\ fst r = Raised canceled_or_failed
  /\ cin (snd r) = ["y"].
Proof.
  intros env pool w r.
  assert (process_exit env (GetCorrectedMySQLExecutable env w)
            (ApplyFile_args (build env) "127.0.0.1" "trinity" "secret" "3306" "world" "" "/src/base.sql")
            (trace w) <> EXIT_SUCCESS) as H1 by (vm_compute; discriminate).
  assert (is_regular_file env "/src/base.sql" w = true) as H2 by (vm_compute; reflexivity).
  assert (is_yes (hd "" (cin w)) = false) as H3 by reflexivity.
  destruct (ApplyFile_declined_throws env pool "127.0.0.1" "trinity" "secret" "3306"
              "world" "" "/src/base.sql" w H1 H2 H3) as (Hr & Hcin & _).
  split; [reflexivity|]. split; [exact Hr|exact Hcin].
Defined.

(** The scratch file cannot be opened. *)
Lemma Create_without_scratch_file_witness :
  let env := scenario false 0 None None false in
  let pool := scenario_pool "world" in
  let w := boot [] scratch_is_directory in
  fst (open_for_writing env temp w) = Normal false
  /\ fst (Create env WorldDatabaseConnection pool w) = Normal false
  /\ started (trace (snd (Create env WorldDatabaseConnection pool w))) = []
  /\ files (snd (Create env WorldDatabaseConnection pool w)) = files w.
Proof.
  intros env pool w.
  assert (fst (open_for_writing env temp w) = Normal false) as H1 by (vm_compute; reflexivity).
  destruct (Create_without_scratch_file env WorldDatabaseConnection pool w H1) as (message & ->).
  split; [exact H1|]. repeat split.
Defined.

(** The client fails once and the operator accepts the fallback. *)
Lemma Create_first_attempt_names_no_database_witness :
  let env := scenario false 1 None None false in
  let pool := scenario_pool "world" in
  let w := boot ["y"; "n"] installed in
  fst (open_for_writing env temp w) = Normal true
  /\ last (ApplyFile_args posix_build "127.0.0.1" "trinity" "secret" "3306" "" "" temp)
     = Some (source_command temp).
Proof.
  intros env pool w.
  assert (fst (open_for_writing env temp w) = Normal true) as H1 by (vm_compute; reflexivity).
  destruct (Create_first_attempt_names_no_database env WorldDatabaseConnection pool w H1)
    as (new & retries & _ & _ & H).
  split; [exact H1|exact H].
Defined.

(** The client fails and the operator, asked about the scratch file,
    answers "n". *)
Lemma Create_asks_operator_after_failure_witness :
  let env := scenario false 1 None None false in
  let pool := scenario_pool "world" in
  let w := boot ["n"] installed in
  fst (open_for_writing env temp w) = Normal true
  /\ exists before after,
       trace (snd (Create env WorldDatabaseConnection pool w))
       = before ++ fallback_prompt :: EvGetline "n" :: after.
Proof.
  intros env pool w.
  assert (fst (open_for_writing env temp w) = Normal true) as H1 by (vm_compute; reflexivity).
  assert (process_exit env (GetCorrectedMySQLExecutable env w)
            (ApplyFile_args (build env)
               (host (GetConnectionInfo pool)) (user (GetConnectionInfo pool))
               (password (GetConnectionInfo pool)) (port_or_socket (GetConnectionInfo pool))
               "" (ssl (GetConnectionInfo pool)) temp)
            (trace (Create_written env pool w)) <> EXIT_SUCCESS) as H2
    by (vm_compute; discriminate).
  destruct (Create_asks_operator_after_failure env WorldDatabaseConnection pool w H1 H2)
    as (new & before & after & Hext & Hnew & _).
  split; [exact H1|]. exists before, after.
  unfold extends_by in Hext. rewrite Hext, Hnew. reflexivity.
Defined.

(** The auth database, whose schema is empty. *)
Lemma Populate_in_repository_downloads_nothing_witness :
  let env := scenario false 0 None None false in
  let pool := scenario_pool "auth" in
  let w := boot [] installed in
  let r := Populate env LoginDatabaseConnection pool w in
  GetBaseLocationType LoginDatabaseConnection = LOCATION_REPOSITORY
  /\ Forall (fun e => ~ is_download_event e) (trace (snd r))
  /\ fst r = Normal true.
Proof.
  intros env pool w r.
  assert (extends_by w (snd r) (trace (snd r))) as H1 by reflexivity.
  destruct (Populate_in_repository_downloads_nothing env LoginDatabaseConnection pool w
              (trace (snd r)) eq_refl H1) as (Hquiet & _).
  split; [reflexivity|]. split; [exact Hquiet|]. vm_compute. reflexivity.
Defined.

(** The world database of a build that names no full database. *)
Lemma Populate_without_base_file_witness :
  let env := scenario_without_base in
  let pool := scenario_pool "world" in
  let w := boot ["y"] installed in
  let r := Populate env WorldDatabaseConnection pool w in
  CheckExecutable env w = (Normal true, w)
  /\ fst r = Normal true
  /\ cin (snd r) = ["y"]
  /\ last (trace (snd r)) = Some no_base_file_log.
Proof.
  intros env pool w r. unfold r.
  assert (CheckExecutable env w = (Normal true, w)) as H1 by (vm_compute; reflexivity).
  rewrite (Populate_without_base_file env WorldDatabaseConnection pool w w H1 eq_refl eq_refl).
  split; [exact H1|]. repeat split.
Defined.


(** [AllowAutoDBUpdate] is set and the transfer delivers a file. *)
Lemma Populate_automatic_witness :
  let env := scenario true 0 (Some "CREATE TABLE t (id INT);") None false in
  let pool := scenario_pool "world" in
  let w := boot ["n"] installed in
  let r := Populate env WorldDatabaseConnection pool w in
  CheckExecutable env w = (Normal true, w)
  /\ exists ok before after,
       trace (snd r)
       = before ++ EvDownloadFile world_url "/src/TDB_full_world.sql" ok :: after
       /\ answers before = [] /\ prompts before = []
       /\ fst r = Normal ok.
Proof.
  intros env pool w r.
  assert (CheckExecutable env w = (Normal true, w)) as H1 by (vm_compute; reflexivity).
  destruct (Populate_automatic env WorldDatabaseConnection pool w w H1 eq_refl eq_refl eq_refl)
    as (ok & before & after & Hext & Ha & _ & Hp & Hr & _).
  split; [exact H1|]. exists ok, before, after.
  split; [exact Hext|]. split; [exact Ha|]. split; [exact Hp|exact Hr].
Defined.

(** A transfer that delivers. *)
Lemma DownloadFile_delivers_witness :
  let env := scenario false 0 (Some "CREATE TABLE t (id INT);") None false in
  let w := boot [] installed in
  let r := DownloadFile env world_url "/src/TDB_full_world.sql" w in
  fst r = Normal true
  /\ exists body, status env "/src/TDB_full_world.sql" (snd r) = Some (RegularFile body).
Proof.
  intros env w r.
  assert (fst r = Normal true) as H1 by (vm_compute; reflexivity).
  destruct (DownloadFile_delivers env world_url "/src/TDB_full_world.sql" w H1)
    as (body & new & location & _ & _ & _ & _ & Hheld).
  split; [exact H1|]. exists body. exact Hheld.
Defined.

(** A transfer that fails on a POSIX build. *)
Lemma DownloadFile_curl_succeeds_iff_witness :
  let env := scenario false 0 None None false in
  let w := boot [] installed in
  _WIN32 (build env) = false
  /\ fst (DownloadFile env world_url "/src/TDB_full_world.sql" w) <> Normal true.
Proof.
  intros env w.
  destruct (DownloadFile_curl_succeeds_iff env world_url "/src/TDB_full_world.sql" w eq_refl)
    as [Hwhen _].
  split; [reflexivity|].
  intros H. destruct (Hwhen H) as (_ & _ & Hbody). now apply Hbody.
Defined.

(** The directory the destination is to be in does not exist. *)
Lemma DownloadFile_curl_gives_up_before_transfer_witness :
  let env := scenario false 0 (Some "CREATE TABLE t (id INT);") None false in
  let w := boot [] installed in
  let r := DownloadFile env world_url "/nodir/world.sql" w in
  fst (open_for_writing env "/nodir/world.sql" w) = Normal false
  /\ fst r = Normal false
  /\ files (snd r) = files w.
Proof.
  intros env w r.
  assert (fst (open_for_writing env "/nodir/world.sql" w) = Normal false) as H1
    by (vm_compute; reflexivity).
  destruct (DownloadFile_curl_gives_up_before_transfer env world_url "/nodir/world.sql" w eq_refl
              (or_intror H1)) as (new & Hr & _ & _ & Hfiles).
  split; [exact H1|]. split; [exact Hr|exact Hfiles].
Defined.

(** The transfer fails after the destination was created. *)
Lemma DownloadFile_curl_failed_transfer_leaves_file_witness :
  let env := scenario false 0 None None false in
  let w := boot [] installed in
  let r := DownloadFile env world_url "/src/TDB_full_world.sql" w in
  is_regular_file env "/src/TDB_full_world.sql" w = false
  /\ fst r = Normal false
  /\ is_regular_file env "/src/TDB_full_world.sql" (snd r) = true.
Proof.
  intros env w r.
  assert (fst (open_for_writing env "/src/TDB_full_world.sql" w) = Normal true) as H1
    by (vm_compute; reflexivity).
  destruct (DownloadFile_curl_failed_transfer_leaves_file env world_url "/src/TDB_full_world.sql" w
              eq_refl eq_refl H1 eq_refl) as (Hr & Hfile).
  split; [vm_compute; reflexivity|]. split; [exact Hr|exact Hfile].
Defined.

(** The fetcher applies two updates. *)
Lemma Update_reports_result_witness :
  let env := scenario false 0 None None false in
  let pool := scenario_pool "world" in
  let w := boot [] installed in
  let r := Update env WorldDatabaseConnection pool w in
  CheckExecutable env w = (Normal true, w)
  /\ fst r = Normal true
  /\ last (trace (snd r))
     = Some (EvLog LOG_INFO "sql.updates"
               ">> Applied 2 queries. Containing 2 new and 0 archived updates.").
Proof.
  intros env pool w r.
  assert (CheckExecutable env w = (Normal true, w)) as H1 by (vm_compute; reflexivity).
  assert (is_directory env (GetSourceDirectory env) w = true) as H2 by (vm_compute; reflexivity).
  destruct (Update_reports_result env WorldDatabaseConnection pool w w (mkUpdateResult 2 2 0)
              (emit (EvFetcherUpdate "/src")
                 (emit (EvLog LOG_INFO "sql.updates" "Updating World database...") w))
              H1 H2 eq_refl) as (head & HU & _ & _ & Hmany).
  split; [exact H1|]. unfold r. rewrite HU.
  rewrite (Hmany eq_refl). split; [reflexivity|].
  vm_compute. reflexivity.
Defined.
